(** * Credit-card recommendation chatbot: the RAG request flow

    A shallow embedding of the recommendation pipeline
    ([generateRecommendations] and its helpers), of the data types it
    exchanges, and of the similarity retriever it calls, together with the
    properties the design document states about them. *)

From Stdlib Require Import List String Ascii Bool Arith ZArith NArith Lia.
From Stdlib Require Import Reals Lra Permutation Sorted.
Import ListNotations.

Set Implicit Arguments.

(** ** JavaScript strings

    A JavaScript string is a sequence of UTF-16 code units.  The string
    constants of the source, all of them ASCII, are written [js "..."]. *)

Module JS.

Definition code_unit := N.
Definition jsstring := list code_unit.

Definition js (s : string) : jsstring :=
  map N_of_ascii (list_ascii_of_string s).

Fixpoint eqb (a b : jsstring) : bool :=
  match a, b with
  | [], [] => true
  | x :: a', y :: b' => N.eqb x y && eqb a' b'
  | _, _ => false
  end.

(** [!s] is true exactly for the empty string. *)
Definition is_empty (s : jsstring) : bool :=
  match s with [] => true | _ :: _ => false end.

(** [s || d] on strings. *)
Definition or_else (s d : jsstring) : jsstring :=
  if is_empty s then d else s.

(** [Array.prototype.join]. *)
Fixpoint join (sep : jsstring) (parts : list jsstring) : jsstring :=
  match parts with
  | [] => []
  | [p] => p
  | p :: rest => p ++ sep ++ join sep rest
  end.

Definition newline : jsstring := [10%N].
Definition dquote : jsstring := [34%N].
Definition quoted (s : string) : jsstring := dquote ++ js s ++ dquote.

End JS.
Import JS.

(** ** JSON values and [JSON.parse] *)

Module Json.

(** A number keeps the exact decimal value of its literal,
    [mantissa * 10 ^ exponent]; the code only ever tests numbers for
    truthiness. *)
#[warnings="-register-all"]
Inductive JSON : Type :=
| JNull
| JBool (b : bool)
| JNumber (mantissa exponent : Z)
| JString (s : jsstring)
| JArray (items : list JSON)
| JObject (fields : list (jsstring * JSON)).

(** The literal denotes a Number other than [0] and [-0]: the nearest
    double of a decimal is zero exactly when its magnitude is at most
    [2 ^ -1075], half the least positive double. *)
Definition number_truthy (m e : Z) : bool :=
  if (m =? 0)%Z then false
  else if (0 <=? e)%Z then true
  else (10 ^ (- e) <? 2 ^ 1075 * Z.abs m)%Z.

(** ToBoolean on a parsed value. *)
Definition truthy (v : JSON) : bool :=
  match v with
  | JNull => false
  | JBool b => b
  | JNumber m e => number_truthy m e
  | JString s => negb (is_empty s)
  | JArray _ => true
  | JObject _ => true
  end.

(** ToBoolean on the result of a property read; [None] is [undefined]. *)
Definition truthy_opt (v : option JSON) : bool :=
  match v with Some x => truthy x | None => false end.

(** Own property of a parsed object.  [JSON.parse] keeps the last of
    several members with one key. *)
Fixpoint lookup (k : jsstring) (fields : list (jsstring * JSON)) : option JSON :=
  match fields with
  | [] => None
  | (k', v) :: rest =>
      match lookup k rest with
      | Some v' => Some v'
      | None => if JS.eqb k k' then Some v else None
      end
  end.

(** [v.k] for one of the property names the code reads ([cards],
    [credit_card_name], [apply_url], [reason]); none of them is defined
    on the prototype of a number, string, boolean, array or object, so
    the read gives [undefined] there.  Reading a property of [null]
    throws a TypeError: the outer [None]. *)
Definition getprop (v : JSON) (k : jsstring) : option (option JSON) :=
  match v with
  | JNull => None
  | JObject fields => Some (lookup k fields)
  | _ => Some None
  end.

(** *** The parser: the JSON grammar of ECMA-404, as [JSON.parse] reads it *)

Definition is_ws (c : N) : bool :=
  (N.eqb c 32 || N.eqb c 9 || N.eqb c 10 || N.eqb c 13)%N.

Fixpoint skip_ws (cs : jsstring) : jsstring :=
  match cs with
  | c :: rest => if is_ws c then skip_ws rest else cs
  | [] => []
  end.

Definition is_digit (c : N) : bool := (N.leb 48 c && N.leb c 57)%N.

Definition hex_value (c : N) : option N :=
  if (N.leb 48 c && N.leb c 57)%N then Some (c - 48)%N
  else if (N.leb 65 c && N.leb c 70)%N then Some (c - 55)%N
  else if (N.leb 97 c && N.leb c 102)%N then Some (c - 87)%N
  else None.

Definition hex4 (a b c d : N) : option N :=
  match hex_value a, hex_value b, hex_value c, hex_value d with
  | Some x, Some y, Some z, Some w => Some (((x * 16 + y) * 16 + z) * 16 + w)%N
  | _, _, _, _ => None
  end.

(** The characters of a string literal after its opening quote; [acc]
    holds the decoded code units, last first. *)
Fixpoint string_chars (cs : jsstring) (acc : jsstring) : option (jsstring * jsstring) :=
  match cs with
  | [] => None
  | 34%N :: rest => Some (rev acc, rest)
  | 92%N :: rest =>
      match rest with
      | 34%N :: r => string_chars r (34%N :: acc)
      | 92%N :: r => string_chars r (92%N :: acc)
      | 47%N :: r => string_chars r (47%N :: acc)
      | 98%N :: r => string_chars r (8%N :: acc)
      | 102%N :: r => string_chars r (12%N :: acc)
      | 110%N :: r => string_chars r (10%N :: acc)
      | 114%N :: r => string_chars r (13%N :: acc)
      | 116%N :: r => string_chars r (9%N :: acc)
      | 117%N :: a :: b :: c :: d :: r =>
          match hex4 a b c d with
          | Some u => string_chars r (u :: acc)
          | None => None
          end
      | _ => None
      end
  | c :: rest => if (c <? 32)%N then None else string_chars rest (c :: acc)
  end.

(** A maximal run of decimal digits, as the integer read so far, the
    number of digits read, and the rest. *)
Fixpoint digits (cs : jsstring) (acc : Z) (count : Z) : Z * Z * jsstring :=
  match cs with
  | c :: rest =>
      if is_digit c then digits rest (10 * acc + (Z.of_N c - 48))%Z (count + 1)%Z
      else (acc, count, cs)
  | [] => (acc, count, [])
  end.

Definition int_part (cs : jsstring) : option (Z * jsstring) :=
  match cs with
  | 48%N :: rest => Some (0%Z, rest)
  | c :: _ =>
      if is_digit c then let '(n, _, rest) := digits cs 0 0 in Some (n, rest)
      else None
  | [] => None
  end.

(** The fraction: the mantissa extended by the digits after the point,
    and how many there were. *)
Definition frac_part (n : Z) (cs : jsstring) : option (Z * Z * jsstring) :=
  match cs with
  | 46%N :: rest =>
      let '(m, k, rest') := digits rest n 0 in
      if (k =? 0)%Z then None else Some (m, k, rest')
  | _ => Some (n, 0%Z, cs)
  end.

Definition exp_digits (cs : jsstring) : option (Z * jsstring) :=
  let '(x, k, rest) := digits cs 0 0 in
  if (k =? 0)%Z then None else Some (x, rest).

Definition exp_part (cs : jsstring) : option (Z * jsstring) :=
  match cs with
  | 101%N :: rest | 69%N :: rest =>
      match rest with
      | 43%N :: r => exp_digits r
      | 45%N :: r =>
          match exp_digits r with
          | Some (x, r') => Some ((- x)%Z, r')
          | None => None
          end
      | _ => exp_digits rest
      end
  | _ => Some (0%Z, cs)
  end.

Definition unsigned_number (cs : jsstring) : option (Z * Z * jsstring) :=
  match int_part cs with
  | None => None
  | Some (n, r1) =>
      match frac_part n r1 with
      | None => None
      | Some (m, k, r2) =>
          match exp_part r2 with
          | None => None
          | Some (x, r3) => Some (m, (x - k)%Z, r3)
          end
      end
  end.

Definition number (cs : jsstring) : option (JSON * jsstring) :=
  match cs with
  | 45%N :: rest =>
      match unsigned_number rest with
      | Some (m, e, r) => Some (JNumber (- m) e, r)
      | None => None
      end
  | _ =>
      match unsigned_number cs with
      | Some (m, e, r) => Some (JNumber m e, r)
      | None => None
      end
  end.

Definition literal (word : string) (v : JSON) (cs : jsstring) : option (JSON * jsstring) :=
  let w := js word in
  if JS.eqb (firstn (List.length w) cs) w then Some (v, skipn (List.length w) cs) else None.

(** One value, with leading white space; [elements] and [members] read
    the rest of an array or object after its first item.  Every call
    that descends spends one unit of [fuel]. *)
Fixpoint value (fuel : nat) (cs : jsstring) : option (JSON * jsstring) :=
  match fuel with
  | O => None
  | S fuel' =>
      match skip_ws cs with
      | [] => None
      | 110%N :: _ => literal "null" JNull (skip_ws cs)
      | 116%N :: _ => literal "true" (JBool true) (skip_ws cs)
      | 102%N :: _ => literal "false" (JBool false) (skip_ws cs)
      | 34%N :: rest =>
          match string_chars rest [] with
          | Some (s, r) => Some (JString s, r)
          | None => None
          end
      | 91%N :: rest =>
          match skip_ws rest with
          | 93%N :: r => Some (JArray [], r)
          | _ =>
              match elements fuel' rest [] with
              | Some (items, r) => Some (JArray items, r)
              | None => None
              end
          end
      | 123%N :: rest =>
          match skip_ws rest with
          | 125%N :: r => Some (JObject [], r)
          | _ =>
              match members fuel' rest [] with
              | Some (fields, r) => Some (JObject fields, r)
              | None => None
              end
          end
      | _ => number (skip_ws cs)
      end
  end

with elements (fuel : nat) (cs : jsstring) (acc : list JSON)
  : option (list JSON * jsstring) :=
  match fuel with
  | O => None
  | S fuel' =>
      match value fuel' cs with
      | None => None
      | Some (v, r) =>
          match skip_ws r with
          | 44%N :: r' => elements fuel' r' (v :: acc)
          | 93%N :: r' => Some (rev (v :: acc), r')
          | _ => None
          end
      end
  end

with members (fuel : nat) (cs : jsstring) (acc : list (jsstring * JSON))
  : option (list (jsstring * JSON) * jsstring) :=
  match fuel with
  | O => None
  | S fuel' =>
      match skip_ws cs with
      | 34%N :: rest =>
          match string_chars rest [] with
          | None => None
          | Some (k, r) =>
              match skip_ws r with
              | 58%N :: r1 =>
                  match value fuel' r1 with
                  | None => None
                  | Some (v, r2) =>
                      match skip_ws r2 with
                      | 44%N :: r3 => members fuel' r3 ((k, v) :: acc)
                      | 125%N :: r3 => Some (rev ((k, v) :: acc), r3)
                      | _ => None
                      end
                  end
              | _ => None
              end
          end
      | _ => None
      end
  end.

(** [JSON.parse text]: one value and nothing but white space after
    it; [None] when the call throws a SyntaxError.  The fuel, twice the
    length of the text, bounds the descent into nested arrays and
    objects. *)
Definition parse (text : jsstring) : option JSON :=
  match value (2 * List.length text + 2) text with
  | Some (v, rest) =>
      match skip_ws rest with
      | [] => Some v
      | _ :: _ => None
      end
  | None => None
  end.

End Json.
Import Json.

(** ** The data model (the type declarations of the application) *)

(** A further attribute of a card: [string | number]. *)
Inductive attribute : Type :=
| AttrString (s : jsstring)
| AttrNumber (x : R).

(** Credit card data structure from Google Sheets. *)
Record CreditCard : Type := {
  id : jsstring;
  credit_card_name : jsstring;
  url_application : jsstring;
  other_attributes : list (jsstring * attribute)
}.

(** Embedding vector with metadata.  The numbers of an embedding are
    taken as real numbers. *)
Record CardEmbedding : Type := {
  cardId : jsstring;
  embedding : list R;
  card : CreditCard
}.

(** Embeddings store structure. *)
Record EmbeddingsStore : Type := {
  cards : list CreditCard;
  embeddings : list CardEmbedding;
  generatedAt : jsstring
}.

(** API response structure.  The recommendations are the objects of the
    model's answer that passed validation, as parsed. *)
Record RecommendationsResponse : Type := {
  recommendations : list JSON;
  rawModelAnswer : option jsstring
}.

(** ** The similarity retriever *)

Module Retriever.

(** The module of the retriever (the embeddings module) is not among
    the sources; it is modelled from section 4.2 of the design document.
    Its numbers are real numbers, and every arithmetic operation passes
    its exact result through [rnd], the rounding of the number format.
    [exact] rounds nothing. *)
Definition exact (x : R) : R := x.

(** The standard model of floating-point arithmetic with unit roundoff
    [u]: an operation returns its exact result with a relative error of
    at most [u] (no overflow, no underflow). *)
Definition standard_model (u : R) (rnd : R -> R) : Prop :=
  forall x : R, exists d : R, (Rabs d <= u)%R /\ rnd x = (x * (1 + d))%R.

Section Arithmetic.

Variable rnd : R -> R.

(** Modelled from the spec: the dot product of two vectors of the
    store's dimensionality (the module of the retriever is not among the
    sources), summed from the first component on, [sum] being the sum
    so far. *)
Fixpoint dot_from (sum : R) (a b : list R) : R :=
  match a, b with
  | x :: a', y :: b' => dot_from (rnd (sum + rnd (x * y))) a' b'
  | _, _ => sum
  end.

(** Modelled from the spec: the dot product. *)
Definition dot (a b : list R) : R := dot_from 0 a b.

(** Modelled from the spec: the magnitude of a vector. *)
Definition magnitude (a : list R) : R := rnd (sqrt (dot a a)).

(** Modelled from the spec: cosine similarity, the dot product divided
    by the product of the magnitudes. *)
Definition cosineSimilarity (a b : list R) : R :=
  rnd (dot a b / rnd (magnitude a * magnitude b)).

End Arithmetic.

Section Ranking.

Variable A : Type.
Variable score : A -> R.

(** Modelled from the spec: [x], which stood before every entry of
    the sorted [l] in the store, goes in front of the first entry
    whose score is not greater than its own, so that entries of
    equal score keep the order of the store. *)
Fixpoint insert_desc (x : A) (l : list A) : list A :=
  match l with
  | [] => [x]
  | y :: l' =>
      if Rle_dec (score y) (score x) then x :: y :: l'
      else y :: insert_desc x l'
  end.

(** Modelled from the spec: the candidates sorted by descending
    score, stable on the order of the store. *)
Fixpoint sort_desc (l : list A) : list A :=
  match l with
  | [] => []
  | x :: l' => insert_desc x (sort_desc l')
  end.

(** Scores that do not increase along the list. *)
Definition descending (l : list A) : Prop :=
  StronglySorted Rge (map score l).

(** The entry has the score [s]. *)
Definition has_score (s : R) (x : A) : bool :=
  if Req_dec_T (score x) s then true else false.

End Ranking.

(** Modelled from the spec: the similarity score of a stored entry
    against the query vector. *)
Definition similarity (rnd : R -> R) (queryEmbedding : list R)
    (ce : CardEmbedding) : R :=
  cosineSimilarity rnd queryEmbedding (embedding ce).

(** Modelled from the spec: the Similarity Retriever; scores every
    stored vector against the query vector, sorts by descending score
    and returns the top [K], a natural number. *)
Definition findSimilarCards (rnd : R -> R) (store : EmbeddingsStore)
    (queryEmbedding : list R) (K : nat) : list CardEmbedding :=
  firstn K (sort_desc (similarity rnd queryEmbedding) (embeddings store)).

End Retriever.

(** ** The recommendation generator *)

(** A thrown value: an error with its class and message. *)
Record JsError : Type := {
  error_class : jsstring;
  error_message : jsstring
}.

(** The client object of the chat and embedding service. *)
Record OpenAI : Type := { apiKey : jsstring }.

Record ChatMessage : Type := {
  role : jsstring;
  content : jsstring
}.

(** The argument of [openai.chat.completions.create]. *)
Record ChatRequest : Type := {
  model : jsstring;
  messages : list ChatMessage;
  temperature : R;
  max_tokens : Z;
  response_format : jsstring
}.

(** What the generator reads of a completion:
    [completion.choices[0]?.message?.content]. *)
Record ChatChoice : Type := { message : option (option jsstring) }.
Record ChatCompletion : Type := { choices : list ChatChoice }.

(** The collaborators of one request: the environment variables, the
    functions imported from the embeddings and data modules, the chat
    service and the runtime's [JSON.parse].  An awaited call either
    rejects with an error or resolves to a value. *)
Record World : Type := {
  env_OPENAI_API_KEY : option jsstring;
  env_CHAT_MODEL : option jsstring;
  embedQuery : jsstring -> JsError + list R;
  findSimilarCards : list R -> nat -> JsError + list CardEmbedding;
  cardToText : CreditCard -> jsstring;
  chat_completions_create : OpenAI -> ChatRequest -> JsError + ChatCompletion;
  JSON_parse : jsstring -> option JSON
}.

(** The calls a request makes to its collaborators, in order. *)
Inductive Event : Type :=
| EmbedQueryCall (userQuery : jsstring)
| FindSimilarCardsCall (queryEmbedding : list R) (topN : nat)
| ChatCompletionCall (client : OpenAI) (request : ChatRequest).

Definition is_chat_call (ev : Event) : bool :=
  match ev with
  | ChatCompletionCall _ _ => true
  | _ => false
  end.

(** A computation that may throw and that records its calls. *)
Definition M (A : Type) : Type := list Event -> (JsError + A) * list Event.

Definition ret {A} (a : A) : M A := fun tr => (inr a, tr).

Definition throw {A} (e : JsError) : M A := fun tr => (inl e, tr).

Definition bind {A B} (m : M A) (f : A -> M B) : M B :=
  fun tr =>
    match m tr with
    | (inl e, tr') => (inl e, tr')
    | (inr a, tr') => f a tr'
    end.

(** [await] of a call to a collaborator. *)
Definition await {A} (ev : Event) (r : JsError + A) : M A :=
  fun tr => (r, tr ++ [ev]).

(** A synchronous call that may throw. *)
Definition call {A} (r : JsError + A) : M A := fun tr => (r, tr).

(** [try { m } catch (error) { handler error }]. *)
Definition try_catch {A} (m : M A) (handler : JsError -> M A) : M A :=
  fun tr =>
    match m tr with
    | (inl e, tr') => handler e tr'
    | (inr a, tr') => (inr a, tr')
    end.

Declare Scope js_scope.
Delimit Scope js_scope with js.
Notation "'let*' x ':=' m 'in' k" := (bind m (fun x => k))
  (at level 10, x name, m at level 100, k at level 200) : js_scope.

(** [!v] on an environment variable. *)
Definition unset (v : option jsstring) : bool :=
  match v with
  | Some s => is_empty s
  | None => true
  end.

Definition missing_key_error : JsError :=
  {| error_class := js "Error";
     error_message := js "OPENAI_API_KEY is not set. Please check your .env.local file." |}.

(** Lazy-loaded OpenAI client. *)
Definition getOpenAIClient (w : World) : JsError + OpenAI :=
  match env_OPENAI_API_KEY w with
  | Some key => if is_empty key then inl missing_key_error else inr {| apiKey := key |}
  | None => inl missing_key_error
  end.

Definition CHAT_MODEL (w : World) : jsstring :=
  match env_CHAT_MODEL w with
  | Some m => or_else m (js "gpt-3.5-turbo")
  | None => js "gpt-3.5-turbo"
  end.

(** Formats candidate cards for the LLM context. *)
Definition formatCardsForContext (w : World) (cards : list CardEmbedding) : jsstring :=
  join newline
    (map (fun cardEmbedding =>
            let card := card cardEmbedding in
            let text := cardToText w card in
            credit_card_name card ++ js " | " ++ text ++ js " | URL: " ++ url_application card)
         cards).

Definition systemPrompt : jsstring :=
  join newline
    [ js "Recommend 3-5 credit cards from the candidate list. Return JSON:";
      js "{";
      js "  " ++ quoted "cards" ++ js ": [";
      js "    {";
      js "      " ++ quoted "credit_card_name" ++ js ": " ++ quoted "exact name from candidate" ++ js ",";
      js "      " ++ quoted "apply_url" ++ js ": " ++ quoted "exact URL from candidate" ++ js ",";
      js "      " ++ quoted "reason" ++ js ": " ++ quoted "2-3 sentence explanation";
      js "    }";
      js "  ]";
      js "}" ].

Definition userPrompt (userQuery context : jsstring) : jsstring :=
  join newline
    [ js "Question: " ++ userQuery;
      [];
      js "Candidates:";
      context;
      [];
      js "Return JSON with best matches." ].

Definition chatRequest (w : World) (userQuery context : jsstring) : ChatRequest :=
  {| model := CHAT_MODEL w;
     messages := [ {| role := js "system"; content := systemPrompt |};
                   {| role := js "user"; content := userPrompt userQuery context |} ];
     temperature := 3 / 10;
     max_tokens := 500;
     response_format := js "json_object" |}.

(** [completion.choices[0]?.message?.content || ''] *)
Definition rawAnswer (completion : ChatCompletion) : jsstring :=
  match choices completion with
  | {| message := Some (Some text) |} :: _ => or_else text []
  | _ => []
  end.

(** [similarCards.some(card => card.card.credit_card_name === v)]: strict
    equality with a string holds for an equal string only. *)
Definition names_a_candidate (similarCards : list CardEmbedding) (v : option JSON) : bool :=
  existsb (fun c =>
             match v with
             | Some (JString s) => JS.eqb (credit_card_name (card c)) s
             | _ => false
             end)
          similarCards.

(** The callback of the filter: [None] when it throws (a property read on
    [null]); [&&] reads its right operand only when the left is truthy. *)
Definition is_valid (similarCards : list CardEmbedding) (rec : JSON) : option bool :=
  match getprop rec (js "credit_card_name") with
  | None => None
  | Some name =>
      if truthy_opt name then
        match getprop rec (js "apply_url") with
        | None => None
        | Some url =>
            if truthy_opt url then
              match getprop rec (js "reason") with
              | None => None
              | Some reason =>
                  if truthy_opt reason then Some (names_a_candidate similarCards name)
                  else Some false
              end
            else Some false
        end
      else Some false
  end.

(** [Array.prototype.filter] with a callback that may throw. *)
Fixpoint filter_try {A} (p : A -> option bool) (l : list A) : option (list A) :=
  match l with
  | [] => Some []
  | x :: l' =>
      match p x with
      | None => None
      | Some b =>
          match filter_try p l' with
          | None => None
          | Some r => Some (if b then x :: r else r)
          end
      end
  end.

(** Step 5, the body of the inner [try]: [None] when it throws
    ([JSON.parse] rejects the text, [parsed] is [null], [parsed.cards] is
    truthy but has no [filter] method, or the callback throws). *)
Definition validRecommendations (w : World) (similarCards : list CardEmbedding)
    (rawAnswer : jsstring) : option (list JSON) :=
  match JSON_parse w rawAnswer with
  | None => None
  | Some parsed =>
      match getprop parsed (js "cards") with
      | None => None
      | Some cards =>
          let recommendations :=
            match cards with
            | Some v => if truthy v then v else JArray []
            | None => JArray []
            end in
          match recommendations with
          | JArray items => filter_try (is_valid similarCards) items
          | _ => None
          end
      end
  end.

Open Scope js_scope.

(** Generates credit card recommendations using RAG.  [topN] is passed
    by the caller; its default is the configured [TOP_N_CARDS].  The
    messages written to the console are left out. *)
Definition generateRecommendations (w : World) (userQuery : jsstring) (topN : nat)
  : M RecommendationsResponse :=
  try_catch
    ((* Step 1: Embed the user query *)
     let* queryEmbedding := await (EmbedQueryCall userQuery) (embedQuery w userQuery) in
     (* Step 2: Find similar cards *)
     let* similarCards :=
       await (FindSimilarCardsCall queryEmbedding topN)
             (findSimilarCards w queryEmbedding topN) in
     match similarCards with
     | [] =>
         ret {| recommendations := [];
                rawModelAnswer := Some (js "No matching cards found.") |}
     | _ :: _ =>
         (* Step 3: Format context for LLM *)
         let context := formatCardsForContext w similarCards in
         (* Step 4: Call LLM with RAG context *)
         let request := chatRequest w userQuery context in
         let* openai := call (getOpenAIClient w) in
         let* completion :=
           await (ChatCompletionCall openai request)
                 (chat_completions_create w openai request) in
         let rawAnswer := rawAnswer completion in
         (* Step 5: Parse LLM response *)
         match validRecommendations w similarCards rawAnswer with
         | Some valid =>
             ret {| recommendations := valid; rawModelAnswer := Some rawAnswer |}
         | None =>
             ret {| recommendations := []; rawModelAnswer := Some rawAnswer |}
         end
     end)
    (fun error => throw error).

(** One request, from an empty record of calls. *)
Definition run {A} (m : M A) : (JsError + A) * list Event := m [].

Close Scope js_scope.

(** The request reaches the chat model and the model answers: the query
    is embedded, the retriever finds the candidates [similarCards], of
    which there is at least one, the client is built and the chat call
    resolves to [completion]. *)
Definition answered (w : World) (userQuery : jsstring) (topN : nat)
    (similarCards : list CardEmbedding) (completion : ChatCompletion) : Prop :=
  exists queryEmbedding openai,
    embedQuery w userQuery = inr queryEmbedding /\
    findSimilarCards w queryEmbedding topN = inr similarCards /\
    similarCards <> [] /\
    getOpenAIClient w = inr openai /\
    chat_completions_create w openai
      (chatRequest w userQuery (formatCardsForContext w similarCards)) = inr completion.

(** What was read as a property is there and is not empty: it is not
    [undefined], [null], [false], the empty string or a zero. *)
Definition present (v : option JSON) : Prop :=
  match v with
  | None => False
  | Some JNull => False
  | Some (JBool b) => b = true
  | Some (JNumber m e) => number_truthy m e = true
  | Some (JString s) => s <> []
  | Some (JArray _) => True
  | Some (JObject _) => True
  end.

(** A recommendation entry gives a value for the property [k]. *)
Definition provides (rec : JSON) (k : string) : Prop :=
  exists v, getprop rec (js k) = Some v /\ present v.

(** ** The query embedder and the calls that leave the process *)

Module Embeddings.

(** A request to the embedding model or to the chat model. *)
Inductive ExternalCall : Type :=
| EmbeddingModelCall (client : OpenAI) (text : jsstring)
| ChatModelCall (client : OpenAI) (request : ChatRequest).

(** Modelled from the spec: the Query Embedder, whose module is not
    among the sources.  The credential of the provider is required for
    any request, and its absence is a configuration error raised before
    any external call (sections 6 and 7 of the design document); with
    the credential the embedder calls the external embedding model once
    and returns its vector or fails with its error (section 4.1).  The
    result comes with the external calls made. *)
Definition embedQuery (OPENAI_API_KEY : option jsstring)
    (embedding_model : OpenAI -> jsstring -> JsError + list R)
    (text : jsstring) : (JsError + list R) * list ExternalCall :=
  match OPENAI_API_KEY with
  | Some key =>
      if is_empty key then (inl missing_key_error, [])
      else (embedding_model {| apiKey := key |} text,
            [EmbeddingModelCall {| apiKey := key |} text])
  | None => (inl missing_key_error, [])
  end.

End Embeddings.



(** ** The client library's retries *)

Module SDK.






End SDK.



(** ** Sample data: the fixed store and the worked request of the design
    document *)

Module Sample.

Definition a_card (name url : string) : CreditCard :=
  {| id := js name; credit_card_name := js name; url_application := js url;
     other_attributes := [] |}.

Definition entry (name url : string) (v : list R) : CardEmbedding :=
  {| cardId := js name; embedding := v; card := a_card name url |}.

Definition A : CardEmbedding := entry "A" "http://x" [1; 0]%R.
Definition B : CardEmbedding := entry "B" "http://w" [0; 1]%R.
Definition C : CardEmbedding := entry "C" "http://z" [7 / 10; 7 / 10]%R.

Definition store : EmbeddingsStore :=
  {| cards := [card A; card B; card C];
     embeddings := [A; B; C];
     generatedAt := js "2025-11-17T00:00:00.000Z" |}.

Definition member (k v : string) : jsstring := quoted k ++ js ":" ++ quoted v.

Definition an_object (name url reason : string) : jsstring :=
  js "{" ++ member "credit_card_name" name ++ js ","
         ++ member "apply_url" url ++ js ","
         ++ member "reason" reason ++ js "}".

(** The model names the candidate A and a card Z that is no candidate. *)
Definition answer_text : jsstring :=
  js "{" ++ quoted "cards" ++ js ":["
    ++ an_object "A" "http://x" "ok" ++ js ","
    ++ an_object "Z" "http://y" "bad" ++ js "]}".

Definition recommendation_A : JSON :=
  JObject [ (js "credit_card_name", JString (js "A"));
            (js "apply_url", JString (js "http://x"));
            (js "reason", JString (js "ok")) ].

Definition a_completion (text : jsstring) : ChatCompletion :=
  {| choices := [ {| message := Some (Some text) |} ] |}.

Definition quota_error : JsError :=
  {| error_class := js "RateLimitError";
     error_message := js "429 You exceeded your current quota" |}.

(** A world whose embedder and retriever answer with fixed values. *)
Definition world (key : option jsstring) (candidates : list CardEmbedding)
    (chat : JsError + ChatCompletion) : World :=
  {| env_OPENAI_API_KEY := key;
     env_CHAT_MODEL := None;
     embedQuery := fun _ => inr [1; 0]%R;
     findSimilarCards := fun _ _ => inr candidates;
     cardToText := fun c => id c;
     chat_completions_create := fun _ _ => chat;
     JSON_parse := Json.parse |}.

(** A rounding that follows the standard model and is not exact: every
    result is scaled up by the unit roundoff of the doubles. *)
Definition unit_roundoff : R := 1 / 9007199254740992.
Definition round_up (x : R) : R := x * (1 + unit_roundoff).

Definition key : option jsstring := Some (js "sk-test").
Definition question : jsstring := js "Best Card for Travel".

(** An embedding model that answers with a fixed vector, and the world
    whose embedder calls it. *)
Definition embedding_model (client : OpenAI) (text : jsstring) : JsError + list R :=
  inr [1; 0]%R.



End Sample.

(** ** Further notions for the request flow *)

(** The own property [k] of an entry of the model's answer; [undefined]
    on anything that is not an object. *)
Definition field (rec : JSON) (k : string) : option JSON :=
  match rec with
  | JObject fields => lookup (js k) fields
  | _ => None
  end.

(** What the callback of the filter computes on an entry other than
    [null]: the name, the URL and the reason are truthy and the name is
    that of a candidate. *)
Definition accepts (similarCards : list CardEmbedding) (rec : JSON) : bool :=
  truthy_opt (field rec "credit_card_name") &&
  truthy_opt (field rec "apply_url") &&
  truthy_opt (field rec "reason") &&
  names_a_candidate similarCards (field rec "credit_card_name").

(** The line [formatCardsForContext] writes for one card. *)
Definition card_line (w : World) (cardEmbedding : CardEmbedding) : jsstring :=
  credit_card_name (card cardEmbedding) ++ js " | "
    ++ cardToText w (card cardEmbedding) ++ js " | URL: "
    ++ url_application (card cardEmbedding).

(** [s.split(c)] for a separator of one code unit. *)
Fixpoint split_at (c : code_unit) (s : jsstring) : list jsstring :=
  match s with
  | [] => [[]]
  | x :: s' =>
      match split_at c s' with
      | piece :: pieces =>
          if N.eqb x c then [] :: piece :: pieces else (x :: piece) :: pieces
      | [] => [[]]
      end
  end.

(** ** More sample data *)

Module MoreSamples.

(** The model names the candidate A and adds a [null] entry. *)
Definition answer_with_null : jsstring :=
  js "{" ++ quoted "cards" ++ js ":["
    ++ Sample.an_object "A" "http://x" "ok" ++ js ",null]}".

(** The model names the candidate A twice, once with a URL of its own,
    and once without a reason. *)
Definition answer_with_repeats : jsstring :=
  js "{" ++ quoted "cards" ++ js ":["
    ++ Sample.an_object "A" "http://x" "ok" ++ js ","
    ++ Sample.an_object "A" "http://elsewhere" "again" ++ js ","
    ++ js "{" ++ Sample.member "credit_card_name" "A" ++ js ","
    ++ Sample.member "apply_url" "http://x" ++ js "}]}".

Definition recommendation_A_elsewhere : JSON :=
  JObject [ (js "credit_card_name", JString (js "A"));
            (js "apply_url", JString (js "http://elsewhere"));
            (js "reason", JString (js "again")) ].

Definition incomplete_A : JSON :=
  JObject [ (js "credit_card_name", JString (js "A"));
            (js "apply_url", JString (js "http://x")) ].

Definition answering (text : jsstring) : World :=
  Sample.world Sample.key [Sample.A; Sample.C] (inr (Sample.a_completion text)).

End MoreSamples.

(** ** The chat page: the handlers of the conversation *)

Module Page.

Inductive Role : Type := user | assistant.

(** A turn of the conversation.  The content and the recommendations of
    a reply are taken from the body of the response as they are, so they
    are parsed values; [None] is a message without recommendations. *)
Record Message : Type := {
  role : Role;
  content : JSON;
  recommendations : option JSON
}.

(** What the browser's engine decides: the text of a Number, and the
    messages of the TypeErrors it throws for a property read on [null]
    and for an object that cannot be converted to a string. *)
Record Engine : Type := {
  number_toString : Z -> Z -> jsstring;
  null_read_message : jsstring -> jsstring;
  to_primitive_message : jsstring
}.

(** A value caught by [catch]: an instance of [Error] with its message,
    or anything else. *)
Inductive Thrown : Type :=
| ErrorInstance (message : jsstring)
| OtherValue.

(** How the request to the server ends: [fetch] rejects, or it resolves
    to a response ([response.ok]) whose [json()] rejects or resolves to
    the parsed body. *)
Inductive FetchOutcome : Type :=
| FetchRejects (error : Thrown)
| JsonRejects (ok : bool) (error : Thrown)
| Responds (ok : bool) (data : JSON).

(** WhiteSpace and LineTerminator code units, which [trim] strips. *)
Definition is_white_space (c : code_unit) : bool :=
  (N.eqb c 9 || N.eqb c 10 || N.eqb c 11 || N.eqb c 12 || N.eqb c 13
   || N.eqb c 32 || N.eqb c 160 || N.eqb c 5760
   || (N.leb 8192 c && N.leb c 8202)
   || N.eqb c 8232 || N.eqb c 8233 || N.eqb c 8239 || N.eqb c 8287
   || N.eqb c 12288 || N.eqb c 65279)%N.

Fixpoint trim_start (s : jsstring) : jsstring :=
  match s with
  | c :: s' => if is_white_space c then trim_start s' else s
  | [] => []
  end.

(** [String.prototype.trim]. *)
Definition trim (s : jsstring) : jsstring :=
  rev (trim_start (rev (trim_start s))).

Section WithEngine.

Variable engine : Engine.

(** ToString of a parsed value, as a template literal applies it;
    [None] when it throws a TypeError: an object with a member named
    [toString] has no callable conversion.  In an array, [null] entries
    give the empty string. *)
Fixpoint to_string (v : JSON) : option jsstring :=
  match v with
  | JNull => Some (js "null")
  | JBool true => Some (js "true")
  | JBool false => Some (js "false")
  | JNumber m e => Some (number_toString engine m e)
  | JString s => Some s
  | JArray items =>
      let fix elements (l : list JSON) : option (list jsstring) :=
        match l with
        | [] => Some []
        | x :: l' =>
            match (match x with JNull => Some [] | _ => to_string x end),
                  elements l' with
            | Some a, Some b => Some (a :: b)
            | _, _ => None
            end
        end in
      match elements items with
      | Some parts => Some (join (js ",") parts)
      | None => None
      end
  | JObject fields =>
      match lookup (js "toString") fields with
      | Some _ => None
      | None => Some (js "[object Object]")
      end
  end.

(** [a || b] on a property that was read. *)
Definition or_default (a : option JSON) (b : JSON) : JSON :=
  match a with
  | Some v => if truthy v then v else b
  | None => b
  end.

Definition help_text : jsstring :=
  join newline
    [ js "Please check:";
      js "- Your OpenAI API key is set correctly in .env.local";
      js "- The Google Sheet is public and accessible";
      js "- Check the browser console and server logs for more details" ].

(** The content of the reply of the [catch] block. *)
Definition error_content (errorMessage : jsstring) : jsstring :=
  [10060%N] ++ js " Error: " ++ errorMessage ++ newline ++ newline ++ help_text.

(** The [catch] block: the reply for a thrown value. *)
Definition error_reply (error : Thrown) : Message :=
  let errorMessage :=
    match error with
    | ErrorInstance message => message
    | OtherValue => js "Sorry, I encountered an error. Please try again."
    end in
  {| role := assistant;
     content := JString (error_content errorMessage);
     recommendations := None |}.

(** The [if] block of the [try]: the error thrown for a response that is
    not ok or whose body has a truthy [error]. *)
Definition response_error (error details : option JSON) : Thrown :=
  let errorMessage := or_default error (JString (js "Failed to get recommendations")) in
  let errorDetails :=
    if truthy_opt details then
      match details with
      | Some d =>
          match to_string d with
          | Some text => Some (newline ++ newline ++ js "Details: " ++ text)
          | None => None
          end
      | None => Some []
      end
    else Some [] in
  match errorDetails, to_string errorMessage with
  | Some d, Some m => ErrorInstance (m ++ d)
  | _, _ => ErrorInstance (to_primitive_message engine)
  end.

(** The [try] block after the body of the response was parsed: the reply
    to add, or the value thrown. *)
Definition reply_of_response (ok : bool) (data : JSON) : Thrown + Message :=
  match getprop data (js "error") with
  | None => inl (ErrorInstance (null_read_message engine (js "error")))
  | Some error =>
      if negb ok || truthy_opt error then
        match getprop data (js "details") with
        | None => inl (ErrorInstance (null_read_message engine (js "details")))
        | Some details => inl (response_error error details)
        end
      else
        match getprop data (js "rawModelAnswer"), getprop data (js "recommendations") with
        | Some rawModelAnswer, Some recs =>
            inr {| role := assistant;
                   content :=
                     or_default rawModelAnswer
                       (JString (js "Here are some recommendations for you:"));
                   recommendations := Some (or_default recs (JArray [])) |}
        | _, _ => inl (ErrorInstance (null_read_message engine (js "rawModelAnswer")))
        end
  end.

(** The reply that ends a turn. *)
Definition reply (outcome : FetchOutcome) : Message :=
  match outcome with
  | FetchRejects error => error_reply error
  | JsonRejects _ error => error_reply error
  | Responds ok data =>
      match reply_of_response ok data with
      | inr message => message
      | inl error => error_reply error
      end
  end.

End WithEngine.

(** What a handler does, in order: the state setters it calls, the
    request it sends and [preventDefault]. *)
Inductive Effect : Type :=
| SetInput (value : jsstring)
| SetIsLoading (value : bool)
| SetMessages (value : list Message)
| Fetch (message : jsstring)
| PreventDefault.

(** The state of the page as a handler sees it. *)
Record State : Type := {
  messages : list Message;
  input : jsstring;
  isLoading : bool
}.

(** [handleSend], for the state the handler was rendered with and the
    way the request ends.  The messages written to the console are left
    out. *)
Definition handleSend (engine : Engine) (st : State) (outcome : FetchOutcome)
  : list Effect :=
  if is_empty (trim (input st)) || isLoading st then []
  else
    let userMessage := trim (input st) in
    let newMessages :=
      messages st ++ [ {| role := user; content := JString userMessage;
                          recommendations := None |} ] in
    [ SetInput [];
      SetIsLoading true;
      SetMessages newMessages;
      Fetch userMessage;
      SetMessages (newMessages ++ [reply engine outcome]);
      SetIsLoading false ].

Definition handleSuggestedQuestion (question : jsstring) : list Effect :=
  [SetInput question].

Record KeyboardEvent : Type := {
  key : jsstring;
  shiftKey : bool
}.

Definition handleKeyPress (engine : Engine) (st : State) (outcome : FetchOutcome)
    (e : KeyboardEvent) : list Effect :=
  if JS.eqb (key e) (js "Enter") && negb (shiftKey e)
  then PreventDefault :: handleSend engine st outcome
  else [].

(** The state after the setters of a handler were applied. *)
Definition apply_effect (st : State) (eff : Effect) : State :=
  match eff with
  | SetInput v => {| messages := messages st; input := v; isLoading := isLoading st |}
  | SetIsLoading v => {| messages := messages st; input := input st; isLoading := v |}
  | SetMessages v => {| messages := v; input := input st; isLoading := isLoading st |}
  | Fetch _ => st
  | PreventDefault => st
  end.

Definition after (st : State) (effects : list Effect) : State :=
  fold_left apply_effect effects st.

(** The request a handler sent, if any. *)
Definition requests (effects : list Effect) : list jsstring :=
  flat_map (fun eff => match eff with Fetch m => [m] | _ => [] end) effects.

(** Sample data.  No example prints a number, so the engine of the
    examples gives every number one text. *)
Definition an_engine : Engine :=
  {| number_toString := fun _ _ => js "0";
     null_read_message := fun k => js "Cannot read properties of null";
     to_primitive_message := js "Cannot convert object to primitive value" |}.

Definition a_state : State :=
  {| messages := []; input := js "  Best Card for Travel "; isLoading := false |}.

Definition a_body : JSON :=
  JObject [ (js "recommendations", JArray [Sample.recommendation_A]);
            (js "rawModelAnswer", JString (js "Pick A.")) ].

Definition an_error_body : JSON :=
  JObject [ (js "error", JString (js "Failed to generate recommendations"));
            (js "details", JString (js "OPENAI_API_KEY is not set")) ].

End Page.

(** * Properties *)

(** ** Strings and parsed values *)

Lemma jsstring_eqb_eq (a b : jsstring) : JS.eqb a b = true <-> a = b.
Proof.
  revert b; induction a as [|x a IH]; intros [|y b]; simpl; split;
    try congruence; try reflexivity.
  - intros H. apply andb_true_iff in H as [Hx Hab].
    apply N.eqb_eq in Hx. apply IH in Hab. congruence.
  - intros H. injection H as -> ->.
    rewrite N.eqb_refl. simpl. now apply IH.
Qed.

Lemma or_else_empty (s : jsstring) : or_else s [] = s.
Proof. now destruct s. Qed.

(** ** The filter of step 5 *)

Lemma filter_try_sound {A} (p : A -> option bool) (l r : list A) :
  filter_try p l = Some r ->
  forall x, In x r -> In x l /\ p x = Some true.
Proof.
  revert r; induction l as [|a l IH]; simpl; intros r H x Hx.
  - injection H as <-. destruct Hx.
  - destruct (p a) as [b|] eqn:Hpa; [|discriminate].
    destruct (filter_try p l) as [r'|] eqn:Hl; [|discriminate].
    injection H as <-.
    destruct b.
    + destruct Hx as [->|Hx]; [auto|].
      destruct (IH r' eq_refl x Hx); auto.
    + destruct (IH r' eq_refl x Hx); auto.
Qed.

Lemma names_a_candidate_sound (similarCards : list CardEmbedding) (v : option JSON) :
  names_a_candidate similarCards v = true ->
  exists c, In c similarCards /\ v = Some (JString (credit_card_name (card c))).
Proof.
  unfold names_a_candidate. intros H.
  apply existsb_exists in H as (c & Hc & Hv).
  exists c. split; [assumption|].
  destruct v as [[]|]; try discriminate.
  apply jsstring_eqb_eq in Hv. now subst.
Qed.

Lemma is_valid_sound (similarCards : list CardEmbedding) (rec : JSON) :
  is_valid similarCards rec = Some true ->
  (exists c, In c similarCards /\
     getprop rec (js "credit_card_name") = Some (Some (JString (credit_card_name (card c))))) /\
  (exists url, getprop rec (js "apply_url") = Some (Some url) /\ truthy url = true) /\
  (exists reason, getprop rec (js "reason") = Some (Some reason) /\ truthy reason = true).
Proof.
  unfold is_valid. intros H.
  destruct (getprop rec (js "credit_card_name")) as [name|] eqn:Hn; [|discriminate].
  destruct (truthy_opt name) eqn:Tn; [|discriminate].
  destruct (getprop rec (js "apply_url")) as [url|] eqn:Hu; [|discriminate].
  destruct (truthy_opt url) eqn:Tu; [|discriminate].
  destruct (getprop rec (js "reason")) as [reason|] eqn:Hr; [|discriminate].
  destruct (truthy_opt reason) eqn:Tr; [|discriminate].
  injection H as H.
  apply names_a_candidate_sound in H as (c & Hc & ->).
  split; [exists c; auto|].
  split.
  - destruct url as [u|]; [|discriminate]. exists u; auto.
  - destruct reason as [r|]; [|discriminate]. exists r; auto.
Qed.

Lemma validRecommendations_sound (w : World) (similarCards : list CardEmbedding)
    (raw : jsstring) (valid : list JSON) :
  validRecommendations w similarCards raw = Some valid ->
  forall rec, In rec valid -> is_valid similarCards rec = Some true.
Proof.
  unfold validRecommendations. intros H rec Hrec.
  destruct (JSON_parse w raw) as [parsed|]; [|discriminate].
  destruct (getprop parsed (js "cards")) as [cards|]; [|discriminate].
  match type of H with
  | match ?r with _ => _ end = _ => destruct r; try discriminate
  end.
  eapply filter_try_sound; eauto.
Qed.

(** ** The request flow *)

(** Once the chat model has answered, the request returns the validated
    recommendations, or none when step 5 throws, with the text of the
    answer; the calls were the embedding, the retrieval and one chat
    call. *)
Lemma generateRecommendations_answered (w : World) (userQuery : jsstring) (topN : nat)
    (similarCards : list CardEmbedding) (completion : ChatCompletion) :
  answered w userQuery topN similarCards completion ->
  fst (run (generateRecommendations w userQuery topN)) =
    inr {| recommendations :=
             match validRecommendations w similarCards (rawAnswer completion) with
             | Some valid => valid
             | None => []
             end;
           rawModelAnswer := Some (rawAnswer completion) |}.
Proof.
  intros (v & client & He & Hf & Hne & Hc & Hchat).
  unfold run, generateRecommendations, try_catch, bind, await, call, ret.
  rewrite He, Hf.
  destruct similarCards as [|c cs]; [congruence|].
  rewrite Hc, Hchat.
  now destruct (validRecommendations w (c :: cs) (rawAnswer completion)).
Qed.

(** A request that returns went one of two ways. *)
Lemma generateRecommendations_returns (w : World) (userQuery : jsstring) (topN : nat)
    (response : RecommendationsResponse) (trace : list Event) :
  run (generateRecommendations w userQuery topN) = (inr response, trace) ->
  (exists queryEmbedding,
     embedQuery w userQuery = inr queryEmbedding /\
     findSimilarCards w queryEmbedding topN = inr [] /\
     recommendations response = []) \/
  (exists queryEmbedding similarCards completion,
     embedQuery w userQuery = inr queryEmbedding /\
     findSimilarCards w queryEmbedding topN = inr similarCards /\
     answered w userQuery topN similarCards completion /\
     recommendations response =
       match validRecommendations w similarCards (rawAnswer completion) with
       | Some valid => valid
       | None => []
       end).
Proof.
  unfold run, generateRecommendations, try_catch, bind, await, call, ret, throw.
  destruct (embedQuery w userQuery) as [e|v] eqn:He; [discriminate|].
  destruct (findSimilarCards w v topN) as [e|sim] eqn:Hf; [discriminate|].
  destruct sim as [|c cs].
  - intros H. injection H as <- _. left. exists v. auto.
  - destruct (getOpenAIClient w) as [e|client] eqn:Hc; [discriminate|].
    destruct (chat_completions_create w client _) as [e|completion] eqn:Hchat;
      [discriminate|].
    intros H. right. exists v, (c :: cs), completion.
    repeat split; try assumption.
    + exists v, client. repeat split; try assumption. discriminate.
    + destruct (validRecommendations w (c :: cs) (rawAnswer completion));
        injection H as <- _; reflexivity.
Qed.

Lemma sample_parse_answer :
  Json.parse Sample.answer_text =
    Some (JObject [ (js "cards",
                     JArray [ Sample.recommendation_A;
                              JObject [ (js "credit_card_name", JString (js "Z"));
                                        (js "apply_url", JString (js "http://y"));
                                        (js "reason", JString (js "bad")) ] ]) ]).
Proof. vm_compute. reflexivity. Qed.

Lemma sample_run :
  run (generateRecommendations
         (Sample.world Sample.key [Sample.A; Sample.C]
            (inr (Sample.a_completion Sample.answer_text)))
         Sample.question 12) =
  (inr {| recommendations := [Sample.recommendation_A];
          rawModelAnswer := Some Sample.answer_text |},
   [ EmbedQueryCall Sample.question;
     FindSimilarCardsCall [1; 0]%R 12;
     ChatCompletionCall {| apiKey := js "sk-test" |}
       (chatRequest (Sample.world Sample.key [Sample.A; Sample.C]
                       (inr (Sample.a_completion Sample.answer_text)))
          Sample.question
          (formatCardsForContext
             (Sample.world Sample.key [Sample.A; Sample.C]
                (inr (Sample.a_completion Sample.answer_text)))
             [Sample.A; Sample.C])) ]).
Proof. reflexivity. Qed.

Ltac step_request :=
  unfold run, generateRecommendations, try_catch, bind, await, call, ret, throw.

Lemma sample_answered (chat : ChatCompletion) :
  answered (Sample.world Sample.key [Sample.A; Sample.C] (inr chat))
    Sample.question 12 [Sample.A; Sample.C] chat.
Proof.
  exists [1; 0]%R, {| apiKey := js "sk-test" |}.
  repeat split; try reflexivity. discriminate.
Qed.

(** ** Validation against the candidate set *)

(** C1: whatever the model answers, every recommendation a request
    returns carries, as its [credit_card_name], the name of one of the
    cards the retriever handed to that request. *)
Theorem recommended_names_are_candidates
    (w : World) (userQuery : jsstring) (topN : nat)
    (response : RecommendationsResponse) (trace : list Event) :
  run (generateRecommendations w userQuery topN) = (inr response, trace) ->
  forall rec, In rec (recommendations response) ->
  exists queryEmbedding similarCards c,
    embedQuery w userQuery = inr queryEmbedding /\
    findSimilarCards w queryEmbedding topN = inr similarCards /\
    In c similarCards /\
    getprop rec (js "credit_card_name") =
      Some (Some (JString (credit_card_name (card c)))).
Proof.
  intros Hrun rec Hrec.
  destruct (generateRecommendations_returns _ _ _ Hrun)
    as [(v & _ & _ & Hnil) | (v & sim & completion & He & Hf & _ & Hrecs)].
  - rewrite Hnil in Hrec. destruct Hrec.
  - rewrite Hrecs in Hrec.
    destruct (validRecommendations w sim (rawAnswer completion)) as [valid|] eqn:Hv;
      [|destruct Hrec].
    pose proof (validRecommendations_sound _ _ _ Hv rec Hrec) as Hok.
    apply is_valid_sound in Hok as ((c & Hc & Hname) & _).
    exists v, sim, c. auto.
Qed.

Lemma recommended_names_are_candidates_witness :
  exists c, In c [Sample.A; Sample.C] /\
    getprop Sample.recommendation_A (js "credit_card_name") =
      Some (Some (JString (credit_card_name (card c)))).
Proof.
  destruct (recommended_names_are_candidates _ _ _ sample_run
              Sample.recommendation_A (or_introl eq_refl))
    as (v & sim & c & _ & Hf & Hc & Hname).
  simpl in Hf. injection Hf as <-.
  exists c. split; assumption.
Defined.

Lemma truthy_opt_present (v : option JSON) : truthy_opt v = true <-> present v.
Proof.
  destruct v as [[|b|m e|s|items|fields]|]; simpl; split;
    try discriminate; try tauto; try congruence.
  - now destruct s.
  - destruct s; [congruence|reflexivity].
Qed.

(** C5: once the model has answered, the request returns; when the
    parsed answer has no [cards] property the list is empty, and every
    recommendation returned comes from the [cards] array and gives a
    name, a URL and a reason, none of them absent, [null], [false], an
    empty string or a zero; an entry of the array that lacks one of the
    three in this sense is not returned. *)
Theorem parsed_recommendations_are_complete
    (w : World) (userQuery : jsstring) (topN : nat)
    (similarCards : list CardEmbedding) (completion : ChatCompletion) :
  answered w userQuery topN similarCards completion ->
  exists response,
    fst (run (generateRecommendations w userQuery topN)) = inr response /\
    (forall parsed,
        JSON_parse w (rawAnswer completion) = Some parsed ->
        getprop parsed (js "cards") = Some None ->
        recommendations response = []) /\
    (forall rec, In rec (recommendations response) ->
        provides rec "credit_card_name" /\ provides rec "apply_url" /\
        provides rec "reason") /\
    (forall parsed items rec,
        JSON_parse w (rawAnswer completion) = Some parsed ->
        getprop parsed (js "cards") = Some (Some (JArray items)) ->
        (In rec (recommendations response) -> In rec items) /\
        (In rec items ->
         ~ (provides rec "credit_card_name" /\ provides rec "apply_url" /\
            provides rec "reason") ->
         ~ In rec (recommendations response))).
Proof.
  intros Hans.
  eexists. split; [apply (generateRecommendations_answered Hans)|]. simpl.
  assert (Hfields : forall rec,
             In rec match validRecommendations w similarCards (rawAnswer completion) with
                    | Some valid => valid
                    | None => []
                    end ->
             provides rec "credit_card_name" /\ provides rec "apply_url" /\
             provides rec "reason").
  { intros rec Hrec.
    destruct (validRecommendations w similarCards (rawAnswer completion))
      as [valid|] eqn:Hv; [|destruct Hrec].
    pose proof (validRecommendations_sound _ _ _ Hv rec Hrec) as Hok.
    revert Hok. unfold is_valid, provides.
    destruct (getprop rec (js "credit_card_name")) as [name|]; [|discriminate].
    destruct (truthy_opt name) eqn:Tn; [|discriminate].
    destruct (getprop rec (js "apply_url")) as [url|]; [|discriminate].
    destruct (truthy_opt url) eqn:Tu; [|discriminate].
    destruct (getprop rec (js "reason")) as [reason|]; [|discriminate].
    destruct (truthy_opt reason) eqn:Tr; [|discriminate].
    intros _.
    repeat split; eexists; (split; [reflexivity|]);
      now apply truthy_opt_present. }
  split; [|split; [exact Hfields|]].
  - intros parsed Hp Hc. unfold validRecommendations. now rewrite Hp, Hc.
  - intros parsed items rec Hp Hc. split.
    + unfold validRecommendations. rewrite Hp, Hc. simpl.
      destruct (filter_try (is_valid similarCards) items) as [valid|] eqn:Hf;
        [|intros []].
      intros Hrec. now destruct (filter_try_sound _ _ Hf rec Hrec).
    + intros _ Hmiss Hrec. apply Hmiss, Hfields, Hrec.
Qed.

Lemma parsed_recommendations_are_complete_witness :
  exists response,
    fst (run (generateRecommendations
                (Sample.world Sample.key [Sample.A; Sample.C]
                   (inr (Sample.a_completion Sample.answer_text)))
                Sample.question 12)) = inr response /\
    recommendations response = [Sample.recommendation_A] /\
    provides Sample.recommendation_A "reason".
Proof.
  destruct (parsed_recommendations_are_complete
              (sample_answered (Sample.a_completion Sample.answer_text)))
    as (response & Hrun & _ & Hfields & _).
  exists response. split; [exact Hrun|].
  rewrite sample_run in Hrun. simpl in Hrun. injection Hrun as <-.
  split; [reflexivity|].
  apply (Hfields Sample.recommendation_A). now left.
Defined.

(** ** Answers that are not JSON *)

(** C2, as the code has it: when the text of the model's answer is not
    valid JSON the request returns, with no recommendation and with the
    text of the answer as it came; that text may be the empty string. *)
Theorem malformed_answer_is_recovered
    (w : World) (userQuery : jsstring) (topN : nat)
    (similarCards : list CardEmbedding) (completion : ChatCompletion) :
  answered w userQuery topN similarCards completion ->
  JSON_parse w (rawAnswer completion) = None ->
  fst (run (generateRecommendations w userQuery topN)) =
    inr {| recommendations := []; rawModelAnswer := Some (rawAnswer completion) |} /\
  (forall text rest,
      choices completion = {| message := Some (Some text) |} :: rest ->
      rawAnswer completion = text /\ (text <> [] -> rawAnswer completion <> [])).
Proof.
  intros Hans Hparse. split.
  - rewrite (generateRecommendations_answered Hans).
    unfold validRecommendations. now rewrite Hparse.
  - intros text rest Hch. unfold rawAnswer. rewrite Hch, or_else_empty. auto.
Qed.

Lemma malformed_answer_is_recovered_witness :
  fst (run (generateRecommendations
              (Sample.world Sample.key [Sample.A; Sample.C]
                 (inr (Sample.a_completion (js "not json"))))
              Sample.question 12)) =
    inr {| recommendations := []; rawModelAnswer := Some (js "not json") |}.
Proof.
  apply (malformed_answer_is_recovered
           (sample_answered (Sample.a_completion (js "not json")))).
  vm_compute. reflexivity.
Defined.

(** The raw-answer field of C2 is not always non-empty: an answer with
    the empty text is not valid JSON, and the request returns the empty
    string in that field. *)
Lemma empty_answer_gives_empty_raw_answer :
  answered (Sample.world Sample.key [Sample.A; Sample.C] (inr (Sample.a_completion [])))
    Sample.question 12 [Sample.A; Sample.C] (Sample.a_completion []) /\
  Json.parse (rawAnswer (Sample.a_completion [])) = None /\
  fst (run (generateRecommendations
              (Sample.world Sample.key [Sample.A; Sample.C]
                 (inr (Sample.a_completion [])))
              Sample.question 12)) =
    inr {| recommendations := []; rawModelAnswer := Some [] |}.
Proof.
  split; [apply sample_answered|]. split; reflexivity.
Qed.

(** ** The credential *)

Lemma getOpenAIClient_unset (w : World) :
  unset (env_OPENAI_API_KEY w) = true -> getOpenAIClient w = inl missing_key_error.
Proof.
  unfold unset, getOpenAIClient.
  destruct (env_OPENAI_API_KEY w) as [k|]; [|reflexivity].
  now intros ->.
Qed.

(** On the code of the generator alone, whatever the embedder does: with
    the credential unset no request ever calls the chat model, and a
    request that comes as far as the chat step fails there with the
    error of [getOpenAIClient]. *)
Lemma missing_key_stops_before_chat
    (w : World) (userQuery : jsstring) (topN : nat) :
  unset (env_OPENAI_API_KEY w) = true ->
  existsb is_chat_call (snd (run (generateRecommendations w userQuery topN))) = false /\
  (forall queryEmbedding similarCards,
      embedQuery w userQuery = inr queryEmbedding ->
      findSimilarCards w queryEmbedding topN = inr similarCards ->
      similarCards <> [] ->
      run (generateRecommendations w userQuery topN) =
        (inl missing_key_error,
         [EmbedQueryCall userQuery; FindSimilarCardsCall queryEmbedding topN])).
Proof.
  intros Hkey. apply getOpenAIClient_unset in Hkey.
  split.
  - step_request.
    destruct (embedQuery w userQuery) as [e|v]; [reflexivity|].
    destruct (findSimilarCards w v topN) as [e|[|c cs]]; try reflexivity.
    now rewrite Hkey.
  - intros v sim He Hf Hne. step_request.
    rewrite He, Hf. destruct sim as [|c cs]; [congruence|].
    now rewrite Hkey.
Qed.




(** ** Failures of the chat model *)






(** ** No candidate *)

(** C10: when the retriever finds no card, the request returns no
    recommendation and the fixed answer, and the only calls made are the
    embedding and the retrieval: the chat model is not called. *)
Theorem no_candidate_no_chat
    (w : World) (userQuery : jsstring) (topN : nat) (queryEmbedding : list R) :
  embedQuery w userQuery = inr queryEmbedding ->
  findSimilarCards w queryEmbedding topN = inr [] ->
  run (generateRecommendations w userQuery topN) =
    (inr {| recommendations := [];
            rawModelAnswer := Some (js "No matching cards found.") |},
     [EmbedQueryCall userQuery; FindSimilarCardsCall queryEmbedding topN]) /\
  existsb is_chat_call (snd (run (generateRecommendations w userQuery topN))) = false.
Proof.
  intros He Hf. step_request. now rewrite He, Hf.
Qed.

Lemma no_candidate_no_chat_witness :
  existsb is_chat_call
    (snd (run (generateRecommendations
                 (Sample.world Sample.key []
                    (inr (Sample.a_completion Sample.answer_text)))
                 Sample.question 12))) = false.
Proof.
  apply (@no_candidate_no_chat
           (Sample.world Sample.key [] (inr (Sample.a_completion Sample.answer_text)))
           Sample.question 12 [1; 0]%R); reflexivity.
Defined.

(** ** The similarity retriever *)

Section RankingFacts.

Import Retriever.

Variable A : Type.
Variable score : A -> R.

Lemma insert_desc_perm (x : A) (l : list A) :
  Permutation (insert_desc score x l) (x :: l).
Proof.
  induction l as [|y l IH]; simpl; [reflexivity|].
  destruct (Rle_dec (score y) (score x)); [reflexivity|].
  rewrite IH. apply perm_swap.
Qed.

Lemma sort_desc_perm (l : list A) : Permutation (sort_desc score l) l.
Proof.
  induction l as [|x l IH]; simpl; [reflexivity|].
  rewrite insert_desc_perm. now constructor.
Qed.

Lemma insert_desc_descending (x : A) (l : list A) :
  descending score l -> descending score (insert_desc score x l).
Proof.
  unfold descending.
  induction l as [|y l IH]; simpl; intros Hl.
  - repeat constructor.
  - apply StronglySorted_inv in Hl as [Hl Hy].
    destruct (Rle_dec (score y) (score x)) as [Hle|Hgt]; simpl.
    + constructor; [constructor; assumption|].
      constructor; [now apply Rle_ge|].
      eapply Forall_impl; [|exact Hy].
      intros s Hs. apply Rle_ge. apply Rge_le in Hs.
      now apply Rle_trans with (score y).
    + constructor; [now apply IH|].
      apply (Permutation_Forall
               (Permutation_sym (Permutation_map score (insert_desc_perm x l)))).
      simpl. constructor; [|assumption].
      apply Rle_ge, Rlt_le. now apply Rnot_le_lt.
Qed.

Lemma sort_desc_descending (l : list A) : descending score (sort_desc score l).
Proof.
  induction l as [|x l IH]; simpl.
  - constructor.
  - now apply insert_desc_descending.
Qed.

Lemma firstn_incl (B : Type) (K : nat) (l : list B) (x : B) :
  In x (firstn K l) -> In x l.
Proof.
  intros H. rewrite <- (firstn_skipn K l). apply in_or_app. now left.
Qed.

Lemma firstn_descending (K : nat) (l : list A) :
  descending score l -> descending score (firstn K l).
Proof.
  unfold descending. revert l.
  induction K as [|K IH]; intros [|x l] Hl; simpl; try constructor.
  - apply IH. now apply StronglySorted_inv in Hl.
  - apply StronglySorted_inv in Hl as [_ Hx].
    rewrite <- firstn_map.
    apply Forall_forall. intros s Hs.
    rewrite Forall_forall in Hx.
    now apply Hx, (firstn_incl K).
Qed.

(** An inserted entry only passes entries of strictly greater score. *)
Lemma insert_desc_stable (s : R) (x : A) (l : list A) :
  filter (has_score score s) (insert_desc score x l) =
  filter (has_score score s) (x :: l).
Proof.
  induction l as [|y l IH]; [reflexivity|].
  simpl insert_desc.
  destruct (Rle_dec (score y) (score x)) as [Hle|Hgt]; [reflexivity|].
  cbn [filter]. rewrite IH. cbn [filter]. unfold has_score.
  destruct (Req_dec_T (score y) s) as [Hy|Hy],
           (Req_dec_T (score x) s) as [Hx|Hx]; try reflexivity.
  exfalso. apply Hgt. rewrite Hy, Hx. apply Rle_refl.
Qed.

Lemma sort_desc_stable (s : R) (l : list A) :
  filter (has_score score s) (sort_desc score l) = filter (has_score score s) l.
Proof.
  induction l as [|x l IH]; [reflexivity|].
  simpl sort_desc. rewrite insert_desc_stable. simpl. now rewrite IH.
Qed.

Lemma filter_firstn_prefix (p : A -> bool) (K : nat) (l : list A) :
  filter p l = filter p (firstn K l) ++ filter p (skipn K l).
Proof.
  rewrite <- filter_app. now rewrite firstn_skipn.
Qed.

End RankingFacts.

(** C4: for every query vector, store and [K], and whatever the rounding
    of the arithmetic, the retriever returns at most [K] entries, never
    more than the store holds, in order of non-increasing cosine
    similarity to the query; from an empty store it returns nothing. *)
Theorem retriever_returns_top_K_sorted
    (rnd : R -> R) (store : EmbeddingsStore) (queryEmbedding : list R) (K : nat) :
  List.length (Retriever.findSimilarCards rnd store queryEmbedding K) <= K /\
  List.length (Retriever.findSimilarCards rnd store queryEmbedding K)
    <= List.length (embeddings store) /\
  StronglySorted Rge
    (map (fun entry => Retriever.cosineSimilarity rnd queryEmbedding (embedding entry))
         (Retriever.findSimilarCards rnd store queryEmbedding K)) /\
  (embeddings store = [] ->
   Retriever.findSimilarCards rnd store queryEmbedding K = []).
Proof.
  unfold Retriever.findSimilarCards.
  split; [apply firstn_le_length|].
  split.
  - rewrite length_firstn, (Permutation_length (sort_desc_perm _ _)). lia.
  - split.
    + apply (firstn_descending (score := Retriever.similarity rnd queryEmbedding)).
      apply sort_desc_descending.
    + intros ->. simpl. apply firstn_nil.
Qed.

(** C6: among the entries of one score the retriever returns the first
    of the store, in the order of the store; when [K] is at least the
    size of the store it returns every entry of the store, sorted by
    descending similarity, and the entries of one score are all there
    in the order of the store. *)
Theorem retriever_returns_all_stably
    (rnd : R -> R) (store : EmbeddingsStore) (queryEmbedding : list R) (K : nat) :
  (forall s, exists rest,
      filter (Retriever.has_score (Retriever.similarity rnd queryEmbedding) s)
             (embeddings store) =
      filter (Retriever.has_score (Retriever.similarity rnd queryEmbedding) s)
             (Retriever.findSimilarCards rnd store queryEmbedding K) ++ rest) /\
  (List.length (embeddings store) <= K ->
   Permutation (Retriever.findSimilarCards rnd store queryEmbedding K)
     (embeddings store) /\
   List.length (Retriever.findSimilarCards rnd store queryEmbedding K)
     = List.length (embeddings store) /\
   Retriever.descending (Retriever.similarity rnd queryEmbedding)
     (Retriever.findSimilarCards rnd store queryEmbedding K) /\
   forall s,
     filter (Retriever.has_score (Retriever.similarity rnd queryEmbedding) s)
            (Retriever.findSimilarCards rnd store queryEmbedding K) =
     filter (Retriever.has_score (Retriever.similarity rnd queryEmbedding) s)
            (embeddings store)).
Proof.
  unfold Retriever.findSimilarCards. split.
  - intros s. eexists.
    rewrite <- (sort_desc_stable (Retriever.similarity rnd queryEmbedding) s
                  (embeddings store)).
    apply filter_firstn_prefix.
  - intros HK.
    rewrite firstn_all2
      by now rewrite (Permutation_length (sort_desc_perm _ _)).
    split; [apply sort_desc_perm|].
    split; [apply Permutation_length, sort_desc_perm|].
    split; [apply sort_desc_descending|].
    intros s. apply sort_desc_stable.
Qed.

Lemma retriever_returns_all_stably_witness :
  Permutation (Retriever.findSimilarCards Retriever.exact Sample.store [1; 0]%R 5)
    [Sample.A; Sample.B; Sample.C].
Proof.
  apply (proj2 (retriever_returns_all_stably Retriever.exact Sample.store [1; 0]%R 5)).
  simpl. lia.
Defined.

(** ** Cosine similarity *)

Section Rounding.

Import Retriever.
Local Open Scope R_scope.

Variable u : R.
Variable rnd : R -> R.
Hypothesis u_small : 0 <= u <= 1 / 8.
Hypothesis rnd_model : standard_model u rnd.

Lemma rnd_factor (x : R) : exists d, - u <= d <= u /\ rnd x = x * (1 + d).
Proof.
  destruct (rnd_model x) as (d & Hd & Hx).
  exists d. split; [|exact Hx].
  unfold Rabs in Hd. destruct (Rcase_abs d); lra.
Qed.

Lemma rnd_nonneg (x : R) : 0 <= x -> 0 <= rnd x.
Proof.
  intros Hx. destruct (rnd_factor x) as (d & Hd & ->). nra.
Qed.

Lemma rnd_pos (x : R) : 0 < x -> 0 < rnd x.
Proof.
  intros Hx. destruct (rnd_factor x) as (d & Hd & ->). nra.
Qed.

Lemma dot_from_self_nonneg (v : list R) (sum : R) :
  0 <= sum -> 0 <= dot_from rnd sum v v.
Proof.
  revert sum; induction v as [|x v IH]; simpl; intros sum Hs; [assumption|].
  apply IH, rnd_nonneg.
  pose proof (@rnd_nonneg (x * x) ltac:(nra)). lra.
Qed.

Lemma dot_from_self_pos (v : list R) (sum : R) :
  0 < sum -> 0 < dot_from rnd sum v v.
Proof.
  revert sum; induction v as [|x v IH]; simpl; intros sum Hs; [assumption|].
  apply IH, rnd_pos.
  pose proof (@rnd_nonneg (x * x) ltac:(nra)). lra.
Qed.

Lemma dot_from_self_nonzero (v : list R) :
  Exists (fun x => x <> 0) v ->
  forall sum, 0 <= sum -> 0 < dot_from rnd sum v v.
Proof.
  induction 1 as [x v Hx | x v _ IH]; simpl; intros sum Hs.
  - apply dot_from_self_pos, rnd_pos.
    pose proof (@rnd_pos (x * x) ltac:(nra)). lra.
  - apply IH, rnd_nonneg.
    pose proof (@rnd_nonneg (x * x) ltac:(nra)). lra.
Qed.

Lemma dot_self_pos (v : list R) :
  Exists (fun x => x <> 0) v -> 0 < dot rnd v v.
Proof.
  intros Hv. apply dot_from_self_nonzero; [assumption | lra].
Qed.

(** The computed similarity of a vector with itself is the quotient of
    three relative errors. *)
Lemma cosineSimilarity_self_factors (v : list R) :
  Exists (fun x => x <> 0) v ->
  exists d1 d2 d3,
    - u <= d1 <= u /\ - u <= d2 <= u /\ - u <= d3 <= u /\
    cosineSimilarity rnd v v = (1 + d3) / ((1 + d1) * (1 + d1) * (1 + d2)).
Proof.
  intros Hv. pose proof (dot_self_pos Hv) as Hd.
  unfold cosineSimilarity, magnitude.
  set (dd := dot rnd v v) in *.
  destruct (rnd_factor (sqrt dd)) as (d1 & H1 & ->).
  destruct (rnd_factor (sqrt dd * (1 + d1) * (sqrt dd * (1 + d1))))
    as (d2 & H2 & ->).
  destruct (rnd_factor (dd / (sqrt dd * (1 + d1) * (sqrt dd * (1 + d1)) * (1 + d2))))
    as (d3 & H3 & ->).
  exists d1, d2, d3. repeat split; try lra.
  pose proof (sqrt_lt_R0 dd Hd) as Hs.
  pose proof (sqrt_sqrt dd ltac:(lra)) as Hsq.
  rewrite <- Hsq at 1.
  field. repeat split; lra.
Qed.

Lemma quotient_of_errors_near_one (d1 d2 d3 : R) :
  - u <= d1 <= u -> - u <= d2 <= u -> - u <= d3 <= u ->
  Rabs ((1 + d3) / ((1 + d1) * (1 + d1) * (1 + d2)) - 1) <= 8 * u.
Proof.
  intros H1 H2 H3.
  set (a := (1 + d1) * (1 + d1) * (1 + d2)).
  assert (Hlo : (1 - u) * (1 - u) * (1 - u) <= a).
  { unfold a.
    assert (H11 : (1 - u) * (1 - u) <= (1 + d1) * (1 + d1)) by nra.
    assert (0 <= (1 - u) * (1 - u)) by nra.
    nra. }
  assert (Hhi : a <= (1 + u) * (1 + u) * (1 + u)).
  { unfold a.
    assert (H11 : (1 + d1) * (1 + d1) <= (1 + u) * (1 + u)) by nra.
    assert (0 <= (1 + d1) * (1 + d1)) by nra.
    nra. }
  assert (Hcube : 343 / 512 <= (1 - u) * (1 - u) * (1 - u)).
  { assert (49 / 64 <= (1 - u) * (1 - u)) by nra. nra. }
  assert (Ha : 0 < a) by lra.
  assert (Hup : 1 + u <= (1 + 8 * u) * ((1 - u) * (1 - u) * (1 - u))).
  { assert (0 <= u * u) by nra. assert (0 <= u * u * u) by nra. nra. }
  assert (Hdown : (1 - 8 * u) * ((1 + u) * (1 + u) * (1 + u)) <= 1 - u).
  { assert (0 <= u * u) by nra. assert (0 <= u * u * u) by nra. nra. }
  apply Rabs_le.
  assert (Hq : (1 + d3) / a - 1 = (1 + d3 - a) / a) by (field; lra).
  rewrite Hq.
  assert (Hinv : 0 < / a) by now apply Rinv_0_lt_compat.
  unfold Rdiv.
  assert (Hone : a * / a = 1) by (apply Rinv_r; lra).
  split.
  - assert (- (8 * u) * a <= 1 + d3 - a) by nra.
    nra.
  - assert (1 + d3 - a <= 8 * u * a) by nra.
    nra.
Qed.

End Rounding.

Lemma exact_standard_model : Retriever.standard_model 0 Retriever.exact.
Proof.
  intros x. exists 0%R. split.
  - rewrite Rabs_R0. apply Rle_refl.
  - unfold Retriever.exact. ring.
Qed.

(** C9: the cosine similarity of a vector that has a non-zero component
    with itself is 1 in exact arithmetic, and within eight units of
    roundoff of 1 under every rounding that follows the standard model
    of floating-point arithmetic. *)
Theorem cosine_similarity_self (v : list R) :
  Exists (fun x => x <> 0%R) v ->
  Retriever.cosineSimilarity Retriever.exact v v = 1%R /\
  forall (u : R) (rnd : R -> R),
    (0 <= u <= 1 / 8)%R -> Retriever.standard_model u rnd ->
    (Rabs (Retriever.cosineSimilarity rnd v v - 1) <= 8 * u)%R.
Proof.
  intros Hv.
  assert (Hnear : forall (u : R) (rnd : R -> R),
             (0 <= u <= 1 / 8)%R -> Retriever.standard_model u rnd ->
             (Rabs (Retriever.cosineSimilarity rnd v v - 1) <= 8 * u)%R).
  { intros u rnd Hu Hrnd.
    destruct (cosineSimilarity_self_factors Hu Hrnd Hv)
      as (d1 & d2 & d3 & H1 & H2 & H3 & ->).
    now apply quotient_of_errors_near_one. }
  split; [|exact Hnear].
  pose proof (Hnear 0%R Retriever.exact ltac:(lra) exact_standard_model) as H0.
  pose proof (Rabs_pos (Retriever.cosineSimilarity Retriever.exact v v - 1)) as Hp.
  assert (Hz : Rabs (Retriever.cosineSimilarity Retriever.exact v v - 1) = 0%R) by lra.
  destruct (Req_dec (Retriever.cosineSimilarity Retriever.exact v v - 1) 0) as [E|E].
  - lra.
  - now apply Rabs_no_R0 in E.
Qed.

Lemma round_up_standard_model :
  Retriever.standard_model Sample.unit_roundoff Sample.round_up.
Proof.
  intros x. exists Sample.unit_roundoff. split; [|reflexivity].
  rewrite Rabs_pos_eq; unfold Sample.unit_roundoff; lra.
Qed.

Lemma cosine_similarity_self_witness :
  Retriever.cosineSimilarity Retriever.exact [3; 4]%R [3; 4]%R = 1%R /\
  (Rabs (Retriever.cosineSimilarity Sample.round_up [3; 4]%R [3; 4]%R - 1)
     <= 8 * Sample.unit_roundoff)%R.
Proof.
  assert (Hv : Exists (fun x => x <> 0%R) [3; 4]%R)
    by (apply Exists_cons_hd; lra).
  split.
  - apply (cosine_similarity_self Hv).
  - apply (cosine_similarity_self Hv).
    + unfold Sample.unit_roundoff. lra.
    + apply round_up_standard_model.
Defined.

(** ** The fixed store of three cards *)

Lemma magnitude_unit_x : Retriever.magnitude Retriever.exact [1; 0]%R = 1%R.
Proof.
  cbv [Retriever.magnitude Retriever.dot Retriever.dot_from Retriever.exact].
  replace (0 + 1 * 1 + 0 * 0)%R with 1%R by ring. apply sqrt_1.
Qed.

Lemma magnitude_unit_y : Retriever.magnitude Retriever.exact [0; 1]%R = 1%R.
Proof.
  cbv [Retriever.magnitude Retriever.dot Retriever.dot_from Retriever.exact].
  replace (0 + 0 * 0 + 1 * 1)%R with 1%R by ring. apply sqrt_1.
Qed.

Lemma magnitude_diagonal :
  (9899 / 10000 < Retriever.magnitude Retriever.exact [7 / 10; 7 / 10]%R < 99 / 100)%R.
Proof.
  cbv [Retriever.magnitude Retriever.dot Retriever.dot_from Retriever.exact].
  set (d := (0 + 7 / 10 * (7 / 10) + 7 / 10 * (7 / 10))%R).
  assert (Hd : d = (98 / 100)%R) by (unfold d; field).
  pose proof (sqrt_pos d) as Hpos.
  pose proof (sqrt_sqrt d ltac:(lra)) as Hsq.
  rewrite Hd in Hsq at 3.
  split; nra.
Qed.

Lemma similarity_A :
  Retriever.similarity Retriever.exact [1; 0]%R Sample.A = 1%R.
Proof.
  unfold Retriever.similarity, Retriever.cosineSimilarity. simpl embedding.
  rewrite magnitude_unit_x.
  cbv [Retriever.dot Retriever.dot_from Retriever.exact]. field.
Qed.

Lemma similarity_B :
  Retriever.similarity Retriever.exact [1; 0]%R Sample.B = 0%R.
Proof.
  unfold Retriever.similarity, Retriever.cosineSimilarity. simpl embedding.
  rewrite magnitude_unit_x, magnitude_unit_y.
  cbv [Retriever.dot Retriever.dot_from Retriever.exact]. field.
Qed.

Lemma similarity_C :
  (707 / 1000 < Retriever.similarity Retriever.exact [1; 0]%R Sample.C
     < 7072 / 10000)%R.
Proof.
  unfold Retriever.similarity, Retriever.cosineSimilarity. simpl embedding.
  rewrite magnitude_unit_x.
  pose proof magnitude_diagonal as [Hlo Hhi].
  set (m := Retriever.magnitude Retriever.exact [7 / 10; 7 / 10]%R) in *.
  cbv [Retriever.dot Retriever.dot_from Retriever.exact].
  replace ((0 + 1 * (7 / 10) + 0 * (7 / 10)) / (1 * m))%R
    with (7 / 10 * / m)%R by (field; lra).
  assert (Hinv : (m * / m = 1)%R) by (apply Rinv_r; lra).
  assert (Hipos : (0 < / m)%R) by (apply Rinv_0_lt_compat; lra).
  split; nra.
Qed.

(** C8: on the store [A, B, C] with embeddings [1,0], [0,1] and
    [0.7,0.7], the two cards nearest to the query [1,0] are A and then
    C; the similarity of A is 1, that of C is within a hundredth of 0.7,
    and that of B is 0. *)
Theorem top_two_of_the_fixed_store :
  Retriever.findSimilarCards Retriever.exact Sample.store [1; 0]%R 2
    = [Sample.A; Sample.C] /\
  Retriever.cosineSimilarity Retriever.exact [1; 0]%R (embedding Sample.A) = 1%R /\
  (Rabs (Retriever.cosineSimilarity Retriever.exact [1; 0]%R (embedding Sample.C)
         - 7 / 10) < 1 / 100)%R /\
  Retriever.cosineSimilarity Retriever.exact [1; 0]%R (embedding Sample.B) = 0%R.
Proof.
  pose proof similarity_A as HA.
  pose proof similarity_B as HB.
  pose proof similarity_C as HC.
  split; [|split; [exact HA|split; [|exact HB]]].
  - unfold Retriever.findSimilarCards.
    cbn [embeddings Sample.store Retriever.sort_desc Retriever.insert_desc].
    destruct (Rle_dec (Retriever.similarity Retriever.exact [1; 0]%R Sample.C)
                      (Retriever.similarity Retriever.exact [1; 0]%R Sample.B))
      as [H|_]; [lra|].
    cbn [Retriever.insert_desc].
    destruct (Rle_dec (Retriever.similarity Retriever.exact [1; 0]%R Sample.C)
                      (Retriever.similarity Retriever.exact [1; 0]%R Sample.A))
      as [_|H]; [|lra].
    reflexivity.
  - unfold Retriever.similarity in HC.
    apply Rabs_def1; lra.
Qed.

(** * Further properties of the request flow *)

(** ** Failures before the chat model *)

(** X1: when the embedding of the query rejects, the request fails with
    that error, and nothing else was called: neither the retriever nor
    the chat model. *)
Theorem embedding_failure_propagates
    (w : World) (userQuery : jsstring) (topN : nat) (error : JsError) :
  embedQuery w userQuery = inl error ->
  run (generateRecommendations w userQuery topN) =
    (inl error, [EmbedQueryCall userQuery]).
Proof.
  intros He. step_request. now rewrite He.
Qed.

Lemma embedding_failure_propagates_witness :
  run (generateRecommendations
         {| env_OPENAI_API_KEY := Sample.key;
            env_CHAT_MODEL := None;
            embedQuery := fun _ => inl Sample.quota_error;
            findSimilarCards := fun _ _ => inr [Sample.A];
            cardToText := fun c => id c;
            chat_completions_create :=
              fun _ _ => inr (Sample.a_completion Sample.answer_text);
            JSON_parse := Json.parse |}
         Sample.question 12) =
    (inl Sample.quota_error, [EmbedQueryCall Sample.question]).
Proof.
  apply embedding_failure_propagates. reflexivity.
Defined.

(** X2: when the retrieval rejects, the request fails with that error
    after the embedding and the retrieval, and the chat model is not
    called. *)
Theorem retrieval_failure_propagates
    (w : World) (userQuery : jsstring) (topN : nat)
    (queryEmbedding : list R) (error : JsError) :
  embedQuery w userQuery = inr queryEmbedding ->
  findSimilarCards w queryEmbedding topN = inl error ->
  run (generateRecommendations w userQuery topN) =
    (inl error,
     [EmbedQueryCall userQuery; FindSimilarCardsCall queryEmbedding topN]).
Proof.
  intros He Hf. step_request. now rewrite He, Hf.
Qed.

Lemma retrieval_failure_propagates_witness :
  run (generateRecommendations
         {| env_OPENAI_API_KEY := Sample.key;
            env_CHAT_MODEL := None;
            embedQuery := fun _ => inr [1; 0]%R;
            findSimilarCards := fun _ _ => inl Sample.quota_error;
            cardToText := fun c => id c;
            chat_completions_create :=
              fun _ _ => inr (Sample.a_completion Sample.answer_text);
            JSON_parse := Json.parse |}
         Sample.question 12) =
    (inl Sample.quota_error,
     [EmbedQueryCall Sample.question; FindSimilarCardsCall [1; 0]%R 12]).
Proof.
  apply retrieval_failure_propagates; reflexivity.
Defined.

(** ** The calls of a request *)

(** X3: whatever the collaborators do, a request calls the embedder
    first and once, with the question as it came, then the retriever at
    most once with the vector the embedder returned, then the chat model
    at most once. *)
Theorem calls_are_made_once_in_order
    (w : World) (userQuery : jsstring) (topN : nat) :
  snd (run (generateRecommendations w userQuery topN)) = [EmbedQueryCall userQuery] \/
  (exists queryEmbedding,
      embedQuery w userQuery = inr queryEmbedding /\
      snd (run (generateRecommendations w userQuery topN)) =
        [EmbedQueryCall userQuery; FindSimilarCardsCall queryEmbedding topN]) \/
  (exists queryEmbedding openai request,
      embedQuery w userQuery = inr queryEmbedding /\
      snd (run (generateRecommendations w userQuery topN)) =
        [EmbedQueryCall userQuery; FindSimilarCardsCall queryEmbedding topN;
         ChatCompletionCall openai request]).
Proof.
  step_request.
  destruct (embedQuery w userQuery) as [e|v]; [now left|].
  destruct (findSimilarCards w v topN) as [e|[|c cs]];
    try (right; left; exists v; split; reflexivity).
  destruct (getOpenAIClient w) as [e|client];
    [right; left; exists v; split; reflexivity|].
  right; right. exists v, client. eexists. split; [reflexivity|].
  destruct (chat_completions_create w client _) as [e|completion]; [reflexivity|].
  destruct (validRecommendations w (c :: cs) (rawAnswer completion)); reflexivity.
Qed.

Lemma chat_call_inversion
    (w : World) (userQuery : jsstring) (topN : nat)
    (openai : OpenAI) (request : ChatRequest) :
  In (ChatCompletionCall openai request)
     (snd (run (generateRecommendations w userQuery topN))) ->
  env_OPENAI_API_KEY w = Some (apiKey openai) /\
  apiKey openai <> [] /\
  exists queryEmbedding similarCards,
    embedQuery w userQuery = inr queryEmbedding /\
    findSimilarCards w queryEmbedding topN = inr similarCards /\
    similarCards <> [] /\
    request = chatRequest w userQuery (formatCardsForContext w similarCards).
Proof.
  step_request.
  destruct (embedQuery w userQuery) as [e|v] eqn:He.
  { simpl. intros [H|[]]. discriminate. }
  destruct (findSimilarCards w v topN) as [e|[|c cs]] eqn:Hf;
    try (simpl; intros [H|[H|[]]]; discriminate).
  unfold getOpenAIClient.
  destruct (env_OPENAI_API_KEY w) as [k|] eqn:Hk;
    [|simpl; intros [H|[H|[]]]; discriminate].
  destruct k as [|k0 k]; [simpl; intros [H|[H|[]]]; discriminate|].
  cbn [is_empty].
  assert (Hin : In (ChatCompletionCall openai request)
                  [EmbedQueryCall userQuery; FindSimilarCardsCall v topN;
                   ChatCompletionCall {| apiKey := k0 :: k |}
                     (chatRequest w userQuery (formatCardsForContext w (c :: cs)))] ->
                openai = {| apiKey := k0 :: k |} /\
                request = chatRequest w userQuery (formatCardsForContext w (c :: cs))).
  { simpl. intros [H|[H|[H|[]]]]; try discriminate. now injection H as <- <-. }
  intros H.
  assert (Hboth : openai = {| apiKey := k0 :: k |} /\
                  request = chatRequest w userQuery (formatCardsForContext w (c :: cs))).
  { apply Hin.
    destruct (chat_completions_create w _ _) as [e|completion]; [exact H|].
    destruct (validRecommendations w (c :: cs) (rawAnswer completion)); exact H. }
  destruct Hboth as [-> ->]. simpl.
  split; [reflexivity|]. split; [discriminate|].
  exists v, (c :: cs). repeat split; try assumption. discriminate.
Qed.

(** X4: a call to the chat model is made with a client that holds the
    key of the environment, which is not empty, and with the request
    built from the question and the candidates the retriever returned,
    of which there is at least one. *)
Theorem chat_call_carries_key_and_candidates
    (w : World) (userQuery : jsstring) (topN : nat)
    (openai : OpenAI) (request : ChatRequest) :
  In (ChatCompletionCall openai request)
     (snd (run (generateRecommendations w userQuery topN))) ->
  env_OPENAI_API_KEY w = Some (apiKey openai) /\
  apiKey openai <> [] /\
  exists queryEmbedding similarCards,
    embedQuery w userQuery = inr queryEmbedding /\
    findSimilarCards w queryEmbedding topN = inr similarCards /\
    similarCards <> [] /\
    request = chatRequest w userQuery (formatCardsForContext w similarCards).
Proof.
  apply chat_call_inversion.
Qed.

Lemma chat_call_carries_key_and_candidates_witness :
  Sample.key = Some (js "sk-test") /\ js "sk-test" <> [].
Proof.
  destruct (@chat_call_carries_key_and_candidates
              (Sample.world Sample.key [Sample.A; Sample.C]
                 (inr (Sample.a_completion Sample.answer_text)))
              Sample.question 12 {| apiKey := js "sk-test" |}
              (chatRequest
                 (Sample.world Sample.key [Sample.A; Sample.C]
                    (inr (Sample.a_completion Sample.answer_text)))
                 Sample.question
                 (formatCardsForContext
                    (Sample.world Sample.key [Sample.A; Sample.C]
                       (inr (Sample.a_completion Sample.answer_text)))
                    [Sample.A; Sample.C])))
    as (Hkey & Hne & _).
  - rewrite sample_run. simpl. right; right; left. reflexivity.
  - split; assumption.
Defined.

(** ** What validation keeps *)

Lemma filter_try_total {A} (p : A -> option bool) (q : A -> bool) (l : list A) :
  (forall x, In x l -> p x = Some (q x)) ->
  filter_try p l = Some (filter q l).
Proof.
  induction l as [|a l IH]; simpl; intros H; [reflexivity|].
  rewrite (H a (or_introl eq_refl)).
  rewrite IH by (intros x Hx; apply H; now right).
  reflexivity.
Qed.

Lemma filter_try_throws {A} (p : A -> option bool) (l : list A) (x : A) :
  In x l -> p x = None -> filter_try p l = None.
Proof.
  induction l as [|a l IH]; simpl; intros Hin Hx; [destruct Hin|].
  destruct Hin as [->|Hin].
  - now rewrite Hx.
  - destruct (p a); [|reflexivity]. now rewrite (IH Hin Hx).
Qed.

Lemma is_valid_accepts (similarCards : list CardEmbedding) (rec : JSON) :
  rec <> JNull -> is_valid similarCards rec = Some (accepts similarCards rec).
Proof.
  intros Hrec. unfold is_valid, accepts, field.
  destruct rec; try congruence; try reflexivity.
  cbn [getprop].
  destruct (truthy_opt (lookup (js "credit_card_name") fields)); [|reflexivity].
  destruct (truthy_opt (lookup (js "apply_url") fields)); [|reflexivity].
  destruct (truthy_opt (lookup (js "reason") fields)); reflexivity.
Qed.

Lemma validRecommendations_array (w : World) (similarCards : list CardEmbedding)
    (raw : jsstring) (parsed : JSON) (items : list JSON) :
  JSON_parse w raw = Some parsed ->
  getprop parsed (js "cards") = Some (Some (JArray items)) ->
  validRecommendations w similarCards raw = filter_try (is_valid similarCards) items.
Proof.
  intros Hp Hc. unfold validRecommendations. now rewrite Hp, Hc.
Qed.

(** X5: when the answer parses to a value whose [cards] is an array
    with no [null] entry, the recommendations returned are exactly the
    entries of that array with a truthy name, URL and reason whose name
    is that of a candidate, in the order of the array and with
    repetitions; the URL is not compared with the candidate's. *)
Theorem validation_keeps_exactly_the_accepted
    (w : World) (userQuery : jsstring) (topN : nat)
    (similarCards : list CardEmbedding) (completion : ChatCompletion)
    (parsed : JSON) (items : list JSON) :
  answered w userQuery topN similarCards completion ->
  JSON_parse w (rawAnswer completion) = Some parsed ->
  getprop parsed (js "cards") = Some (Some (JArray items)) ->
  ~ In JNull items ->
  fst (run (generateRecommendations w userQuery topN)) =
    inr {| recommendations := filter (accepts similarCards) items;
           rawModelAnswer := Some (rawAnswer completion) |}.
Proof.
  intros Hans Hp Hc Hnull.
  rewrite (generateRecommendations_answered Hans).
  rewrite (@validRecommendations_array w similarCards _ _ _ Hp Hc).
  rewrite (filter_try_total (is_valid similarCards) (accepts similarCards)).
  - reflexivity.
  - intros x Hx. apply is_valid_accepts. intros ->. contradiction.
Qed.

Lemma validation_keeps_exactly_the_accepted_witness :
  fst (run (generateRecommendations
              (MoreSamples.answering MoreSamples.answer_with_repeats)
              Sample.question 12)) =
    inr {| recommendations :=
             [Sample.recommendation_A; MoreSamples.recommendation_A_elsewhere];
           rawModelAnswer := Some MoreSamples.answer_with_repeats |}.
Proof.
  apply (@validation_keeps_exactly_the_accepted
           (MoreSamples.answering MoreSamples.answer_with_repeats)
           Sample.question 12 [Sample.A; Sample.C]
           (Sample.a_completion MoreSamples.answer_with_repeats)
           (JObject [(js "cards",
                      JArray [Sample.recommendation_A;
                              MoreSamples.recommendation_A_elsewhere;
                              MoreSamples.incomplete_A])])
           [Sample.recommendation_A; MoreSamples.recommendation_A_elsewhere;
            MoreSamples.incomplete_A]).
  - apply sample_answered.
  - vm_compute. reflexivity.
  - reflexivity.
  - simpl. intros [H|[H|[H|[]]]]; discriminate.
Defined.

(** X6: one [null] entry in the [cards] array of the answer discards
    every recommendation of that answer, the valid ones too; the request
    still returns, with the text of the answer. *)
Theorem null_entry_discards_all
    (w : World) (userQuery : jsstring) (topN : nat)
    (similarCards : list CardEmbedding) (completion : ChatCompletion)
    (parsed : JSON) (items : list JSON) :
  answered w userQuery topN similarCards completion ->
  JSON_parse w (rawAnswer completion) = Some parsed ->
  getprop parsed (js "cards") = Some (Some (JArray items)) ->
  In JNull items ->
  fst (run (generateRecommendations w userQuery topN)) =
    inr {| recommendations := [];
           rawModelAnswer := Some (rawAnswer completion) |}.
Proof.
  intros Hans Hp Hc Hnull.
  rewrite (generateRecommendations_answered Hans).
  rewrite (@validRecommendations_array w similarCards _ _ _ Hp Hc).
  now rewrite (filter_try_throws (is_valid similarCards) items JNull Hnull).
Qed.

Lemma null_entry_discards_all_witness :
  fst (run (generateRecommendations
              (MoreSamples.answering MoreSamples.answer_with_null)
              Sample.question 12)) =
    inr {| recommendations := [];
           rawModelAnswer := Some MoreSamples.answer_with_null |}.
Proof.
  apply (@null_entry_discards_all
           (MoreSamples.answering MoreSamples.answer_with_null)
           Sample.question 12 [Sample.A; Sample.C]
           (Sample.a_completion MoreSamples.answer_with_null)
           (JObject [(js "cards", JArray [Sample.recommendation_A; JNull])])
           [Sample.recommendation_A; JNull]).
  - apply sample_answered.
  - vm_compute. reflexivity.
  - reflexivity.
  - simpl. auto.
Defined.

Lemma filter_try_null_free {A} (p : A -> option bool) (l r : list A) (x : A) :
  filter_try p l = Some r -> In x l -> p x <> None.
Proof.
  intros Hf Hin Hx. now rewrite (filter_try_throws p l x Hin Hx) in Hf.
Qed.

(** X7: a request returns recommendations only when the chat model
    answered with a text that parses to a value whose [cards] is an
    array without [null] entries; in every other case (no candidate,
    text that is no JSON, a [null] answer, [cards] absent, falsy or not
    an array) the list is empty. *)
Theorem recommendations_need_a_cards_array
    (w : World) (userQuery : jsstring) (topN : nat)
    (response : RecommendationsResponse) (trace : list Event) :
  run (generateRecommendations w userQuery topN) = (inr response, trace) ->
  recommendations response <> [] ->
  exists similarCards completion parsed items,
    answered w userQuery topN similarCards completion /\
    JSON_parse w (rawAnswer completion) = Some parsed /\
    getprop parsed (js "cards") = Some (Some (JArray items)) /\
    ~ In JNull items /\
    recommendations response = filter (accepts similarCards) items /\
    rawModelAnswer response = Some (rawAnswer completion).
Proof.
  intros Hrun Hne.
  destruct (generateRecommendations_returns _ _ _ Hrun)
    as [(v & _ & _ & Hnil) | (v & sim & completion & _ & _ & Hans & Hrecs)];
    [congruence|].
  pose proof (generateRecommendations_answered Hans) as Hfst.
  rewrite Hrun in Hfst. simpl in Hfst. injection Hfst as Hresp.
  assert (Hraw : rawModelAnswer response = Some (rawAnswer completion))
    by now rewrite Hresp.
  unfold validRecommendations in Hrecs.
  destruct (JSON_parse w (rawAnswer completion)) as [parsed|] eqn:Hp; [|congruence].
  destruct (getprop parsed (js "cards")) as [[cards|]|] eqn:Hc; try congruence.
  - destruct (truthy cards) eqn:Ht.
    + destruct cards as [| | | |items|]; try congruence.
      destruct (filter_try (is_valid sim) items) as [valid|] eqn:Hf; [|congruence].
      assert (Hnull : ~ In JNull items).
      { intros Hin. now apply (filter_try_null_free _ _ _ Hf Hin). }
      exists sim, completion, parsed, items.
      repeat split; try assumption.
      rewrite Hrecs.
      rewrite (filter_try_total (is_valid sim) (accepts sim)) in Hf.
      * now injection Hf.
      * intros x Hx. apply is_valid_accepts. intros ->. contradiction.
    + simpl in Hrecs. congruence.
  - simpl in Hrecs. congruence.
Qed.

Lemma recommendations_need_a_cards_array_witness :
  exists items,
    [Sample.recommendation_A] = filter (accepts [Sample.A; Sample.C]) items.
Proof.
  destruct (recommendations_need_a_cards_array _ _ _ sample_run)
    as (sim & completion & parsed & items & Hans & _ & _ & _ & Hrecs & _).
  - discriminate.
  - destruct Hans as (v & client & _ & Hf & _).
    simpl in Hf. injection Hf as <-.
    exists items. exact Hrecs.
Defined.

(** X8: every response a request returns carries a raw answer: the
    fixed text when the retriever found no card, and otherwise the text
    of the model's answer, whatever became of its recommendations. *)
Theorem raw_answer_is_always_returned
    (w : World) (userQuery : jsstring) (topN : nat)
    (response : RecommendationsResponse) (trace : list Event) :
  run (generateRecommendations w userQuery topN) = (inr response, trace) ->
  (rawModelAnswer response = Some (js "No matching cards found.") /\
   recommendations response = [] /\
   existsb is_chat_call trace = false) \/
  (exists similarCards completion,
      answered w userQuery topN similarCards completion /\
      rawModelAnswer response = Some (rawAnswer completion)).
Proof.
  intros Hrun.
  destruct (generateRecommendations_returns _ _ _ Hrun)
    as [(v & He & Hf & _) | (v & sim & completion & _ & _ & Hans & _)].
  - left. revert Hrun. step_request. rewrite He, Hf.
    intros H. injection H as <- <-. auto.
  - right. exists sim, completion. split; [assumption|].
    pose proof (generateRecommendations_answered Hans) as Hfst.
    rewrite Hrun in Hfst. simpl in Hfst. now injection Hfst as ->.
Qed.

Lemma raw_answer_is_always_returned_witness :
  exists similarCards completion,
    answered (Sample.world Sample.key [Sample.A; Sample.C]
                (inr (Sample.a_completion Sample.answer_text)))
      Sample.question 12 similarCards completion /\
    Some Sample.answer_text = Some (rawAnswer completion).
Proof.
  destruct (raw_answer_is_always_returned _ _ _ sample_run)
    as [(H & _) | H].
  - discriminate.
  - exact H.
Defined.

(** ** The context of the prompt *)

Lemma split_at_plain (c : code_unit) (s : jsstring) :
  ~ In c s -> split_at c s = [s].
Proof.
  induction s as [|x s IH]; simpl; intros H; [reflexivity|].
  rewrite IH by tauto.
  destruct (N.eqb_spec x c) as [->|_]; [tauto|reflexivity].
Qed.

Lemma split_at_app (c : code_unit) (a b : jsstring) :
  ~ In c a -> split_at c (a ++ c :: b) = a :: split_at c b.
Proof.
  induction a as [|x a IH]; simpl; intros H.
  - rewrite N.eqb_refl. now destruct (split_at c b).
  - rewrite IH by tauto.
    destruct (N.eqb_spec x c) as [->|_]; [tauto|reflexivity].
Qed.

Lemma join_cons (sep p : jsstring) (q : jsstring) (rest : list jsstring) :
  join sep (p :: q :: rest) = p ++ sep ++ join sep (q :: rest).
Proof. reflexivity. Qed.

(** X9: the context has one line per candidate: when no line written
    for a card holds a line break, splitting the context of a non-empty
    candidate list at the line breaks gives back the lines of the cards,
    in the order of the candidates. *)
Theorem context_has_one_line_per_card
    (w : World) (similarCards : list CardEmbedding) :
  similarCards <> [] ->
  (forall c, In c similarCards -> ~ In 10%N (card_line w c)) ->
  split_at 10%N (formatCardsForContext w similarCards) =
    map (card_line w) similarCards.
Proof.
  unfold formatCardsForContext.
  change (fun cardEmbedding : CardEmbedding =>
            let card := card cardEmbedding in
            let text := cardToText w card in
            credit_card_name card ++ js " | " ++ text ++ js " | URL: "
              ++ url_application card)
    with (card_line w).
  induction similarCards as [|c cs IH]; intros Hne Hlines; [congruence|].
  destruct cs as [|c' cs].
  - simpl. apply split_at_plain. apply Hlines. now left.
  - cbn [map]. rewrite join_cons. unfold newline. cbn [app].
    rewrite split_at_app by (apply Hlines; now left).
    f_equal. apply IH; [discriminate|].
    intros x Hx. apply Hlines. now right.
Qed.

Lemma context_has_one_line_per_card_witness :
  split_at 10%N
    (formatCardsForContext
       (Sample.world Sample.key [Sample.A; Sample.C]
          (inr (Sample.a_completion Sample.answer_text)))
       [Sample.A; Sample.C]) =
    [js "A | A | URL: http://x"; js "C | C | URL: http://z"].
Proof.
  apply (@context_has_one_line_per_card
           (Sample.world Sample.key [Sample.A; Sample.C]
              (inr (Sample.a_completion Sample.answer_text)))
           [Sample.A; Sample.C]).
  - discriminate.
  - intros c [<-|[<-|[]]]; vm_compute;
      intro H; repeat (destruct H as [H|H]; [discriminate|]); exact H.
Defined.

(** * The chat page *)

(** ** Trimming *)

Lemma trim_start_split (s : jsstring) :
  exists spaces,
    s = spaces ++ Page.trim_start s /\
    Forall (fun c => Page.is_white_space c = true) spaces.
Proof.
  induction s as [|c s (spaces & Hs & Hall)]; simpl.
  - exists []. split; [reflexivity|constructor].
  - destruct (Page.is_white_space c) eqn:Hc.
    + exists (c :: spaces). split; [simpl; congruence|now constructor].
    + exists []. split; [reflexivity|constructor].
Qed.

Lemma trim_start_head (s : jsstring) (c : code_unit) (rest : jsstring) :
  Page.trim_start s = c :: rest -> Page.is_white_space c = false.
Proof.
  induction s as [|x s IH]; simpl; [discriminate|].
  destruct (Page.is_white_space x) eqn:Hx; [exact IH|].
  intros H. injection H as <- _. exact Hx.
Qed.

Lemma trim_last (s front : jsstring) (c : code_unit) :
  Page.trim s = front ++ [c] -> Page.is_white_space c = false.
Proof.
  unfold Page.trim. intros H.
  apply (f_equal (@rev _)) in H.
  rewrite rev_involutive, rev_app_distr in H. simpl in H.
  exact (trim_start_head _ H).
Qed.

Lemma trim_head (s : jsstring) (c : code_unit) (rest : jsstring) :
  Page.trim s = c :: rest -> Page.is_white_space c = false.
Proof.
  unfold Page.trim. intros H.
  destruct (trim_start_split (rev (Page.trim_start s))) as (spaces & Hs & _).
  apply (f_equal (@rev _)) in Hs.
  rewrite rev_involutive, rev_app_distr, H in Hs.
  simpl in Hs.
  exact (trim_start_head s Hs).
Qed.

(** ** Sending a question *)

(** X10: [handleSend] does nothing at all, no state change and no
    request, exactly when the input is blank (empty or white space only)
    or a request is under way. *)
Theorem blank_or_busy_sends_nothing
    (engine : Page.Engine) (st : Page.State) (outcome : Page.FetchOutcome) :
  Page.handleSend engine st outcome = [] <->
  Page.trim (Page.input st) = [] \/ Page.isLoading st = true.
Proof.
  unfold Page.handleSend.
  destruct (Page.trim (Page.input st)) as [|c s] eqn:Ht; simpl.
  - split; auto.
  - destruct (Page.isLoading st); split; auto; try discriminate.
    intros [H|H]; discriminate.
Qed.

(** X11: a question that is not blank, sent while no request is under
    way, is sent once, trimmed: the text sent is not empty and has no
    white space at either end.  However the request ends, the page is
    left with the input cleared, the loading flag down, and the earlier
    messages followed by the question and by one reply. *)
Theorem a_send_adds_the_question_and_one_reply
    (engine : Page.Engine) (st : Page.State) (outcome : Page.FetchOutcome) :
  Page.trim (Page.input st) <> [] ->
  Page.isLoading st = false ->
  Page.requests (Page.handleSend engine st outcome) = [Page.trim (Page.input st)] /\
  Page.after st (Page.handleSend engine st outcome) =
    {| Page.messages :=
         Page.messages st ++
           [ {| Page.role := Page.user;
                Page.content := JString (Page.trim (Page.input st));
                Page.recommendations := None |};
             Page.reply engine outcome ];
       Page.input := [];
       Page.isLoading := false |} /\
  (forall c rest, Page.trim (Page.input st) = c :: rest ->
                  Page.is_white_space c = false) /\
  (forall front c, Page.trim (Page.input st) = front ++ [c] ->
                   Page.is_white_space c = false).
Proof.
  intros Hne Hload. unfold Page.handleSend.
  destruct (Page.trim (Page.input st)) as [|c s] eqn:Ht; [congruence|].
  rewrite Hload. simpl.
  split; [reflexivity|].
  split; [unfold Page.after; simpl; now rewrite <- app_assoc|].
  split.
  - intros c' rest H. rewrite <- Ht in H. exact (trim_head _ H).
  - intros front c' H. rewrite <- Ht in H. exact (@trim_last _ _ _ H).
Qed.

Lemma a_send_adds_the_question_and_one_reply_witness :
  Page.requests
    (Page.handleSend Page.an_engine Page.a_state (Page.Responds true Page.a_body))
    = [js "Best Card for Travel"].
Proof.
  apply (@a_send_adds_the_question_and_one_reply
           Page.an_engine Page.a_state (Page.Responds true Page.a_body)).
  - vm_compute. discriminate.
  - reflexivity.
Defined.

(** X12: handlers never drop a message: every list of messages a
    handler sets begins with the messages it was rendered with. *)
Theorem handlers_keep_the_history
    (engine : Page.Engine) (st : Page.State) (outcome : Page.FetchOutcome)
    (e : Page.KeyboardEvent) (question : jsstring) (value : list Page.Message) :
  In (Page.SetMessages value)
     (Page.handleKeyPress engine st outcome e
        ++ Page.handleSend engine st outcome
        ++ Page.handleSuggestedQuestion question) ->
  exists more, value = Page.messages st ++ more.
Proof.
  assert (Hsend : In (Page.SetMessages value) (Page.handleSend engine st outcome) ->
                  exists more, value = Page.messages st ++ more).
  { unfold Page.handleSend.
    destruct (is_empty (Page.trim (Page.input st)) || Page.isLoading st);
      [intros []|].
    simpl. intros [H|[H|[H|[H|[H|[H|[]]]]]]]; try discriminate;
      injection H as <-; eexists; [reflexivity|].
    now rewrite <- app_assoc. }
  intros H. apply in_app_or in H as [H|H].
  - unfold Page.handleKeyPress in H.
    destruct (JS.eqb (Page.key e) (js "Enter") && negb (Page.shiftKey e));
      [|destruct H].
    destruct H as [H|H]; [discriminate|auto].
  - apply in_app_or in H as [H|H]; [auto|].
    destruct H as [H|[]]. discriminate.
Qed.

Lemma handlers_keep_the_history_witness :
  exists more,
    [ {| Page.role := Page.user;
         Page.content := JString (js "Best Card for Travel");
         Page.recommendations := None |} ] = Page.messages Page.a_state ++ more.
Proof.
  apply (@handlers_keep_the_history
           Page.an_engine Page.a_state (Page.Responds true Page.a_body)
           {| Page.key := js "Enter"; Page.shiftKey := false |} []).
  vm_compute. right; right; right. left. reflexivity.
Defined.

(** X13: the Enter key sends the question exactly when Shift is not
    held, the input is not blank and no request is under way; it then
    sends the trimmed input.  The default action of the key is prevented
    for every Enter without Shift, also when nothing is sent, and for no
    other key. *)
Theorem enter_sends (engine : Page.Engine) (st : Page.State)
    (outcome : Page.FetchOutcome) (e : Page.KeyboardEvent) :
  (forall message,
      In (Page.Fetch message) (Page.handleKeyPress engine st outcome e) <->
      Page.key e = js "Enter" /\ Page.shiftKey e = false /\
      Page.trim (Page.input st) <> [] /\ Page.isLoading st = false /\
      message = Page.trim (Page.input st)) /\
  (In Page.PreventDefault (Page.handleKeyPress engine st outcome e) <->
   Page.key e = js "Enter" /\ Page.shiftKey e = false).
Proof.
  assert (Hkey : JS.eqb (Page.key e) (js "Enter") = true <-> Page.key e = js "Enter")
    by apply jsstring_eqb_eq.
  unfold Page.handleKeyPress, Page.handleSend.
  destruct (JS.eqb (Page.key e) (js "Enter"));
    destruct (Page.shiftKey e);
    destruct (Page.trim (Page.input st)) as [|c s];
    destruct (Page.isLoading st);
    cbn [andb negb orb is_empty];
    (split; [intros message|]; split; intros H);
    repeat match goal with
           | H : _ /\ _ |- _ => destruct H
           | H : In _ _ |- _ => simpl in H
           | H : _ \/ _ |- _ => destruct H
           | H : False |- _ => destruct H
           | H : Page.Fetch _ = Page.Fetch _ |- _ => injection H as H
           end;
    subst; try discriminate; try congruence;
    try (assert (false = true) by (apply Hkey; assumption); discriminate);
    repeat split; try (now apply Hkey); try discriminate; simpl; auto 10.
Qed.

(** ** The reply *)

(** X14: the reply of a turn is either the answer of an ok response whose
    body has no truthy [error] (its raw answer, or the stock sentence
    when that is absent or empty, with its recommendations, or the empty
    list when they are absent), or an error message without
    recommendations; recommendations are never shown with an error. *)
Theorem reply_is_an_answer_or_an_error
    (engine : Page.Engine) (outcome : Page.FetchOutcome) :
  (exists data error rawModelAnswer recs,
      outcome = Page.Responds true data /\
      getprop data (js "error") = Some error /\
      truthy_opt error = false /\
      getprop data (js "rawModelAnswer") = Some rawModelAnswer /\
      getprop data (js "recommendations") = Some recs /\
      Page.reply engine outcome =
        {| Page.role := Page.assistant;
           Page.content :=
             Page.or_default rawModelAnswer
               (JString (js "Here are some recommendations for you:"));
           Page.recommendations := Some (Page.or_default recs (JArray [])) |}) \/
  (exists errorMessage,
      Page.reply engine outcome =
        {| Page.role := Page.assistant;
           Page.content := JString (Page.error_content errorMessage);
           Page.recommendations := None |}).
Proof.
  assert (Herr : forall t, exists errorMessage,
               Page.error_reply t =
                 {| Page.role := Page.assistant;
                    Page.content := JString (Page.error_content errorMessage);
                    Page.recommendations := None |}).
  { intros t. unfold Page.error_reply. eexists. reflexivity. }
  destruct outcome as [t|ok t|ok data]; simpl; try (right; apply Herr).
  unfold Page.reply_of_response.
  destruct (getprop data (js "error")) as [error|] eqn:He; [|right; apply Herr].
  destruct ok; simpl.
  - destruct (truthy_opt error) eqn:Ht.
    + destruct (getprop data (js "details")); right; apply Herr.
    + destruct (getprop data (js "rawModelAnswer")) as [raw|] eqn:Hr;
        [|right; apply Herr].
      destruct (getprop data (js "recommendations")) as [recs|] eqn:Hc;
        [|right; apply Herr].
      left. exists data, error, raw, recs. repeat split; assumption.
  - destruct (getprop data (js "details")); right; apply Herr.
Qed.

(** X15: a body with a non-empty [error] string is shown as an error
    whether or not the response is ok: the reply shows that string,
    followed by the details when the body has a non-empty [details]
    string, and it carries no recommendations even when the body has
    some. *)
Theorem body_error_is_shown
    (engine : Page.Engine) (ok : bool) (fields : list (jsstring * JSON))
    (e : jsstring) :
  lookup (js "error") fields = Some (JString e) ->
  e <> [] ->
  (lookup (js "details") fields = None ->
   Page.reply engine (Page.Responds ok (JObject fields)) =
     {| Page.role := Page.assistant;
        Page.content := JString (Page.error_content e);
        Page.recommendations := None |}) /\
  (forall d,
      lookup (js "details") fields = Some (JString d) -> d <> [] ->
      Page.reply engine (Page.Responds ok (JObject fields)) =
        {| Page.role := Page.assistant;
           Page.content :=
             JString (Page.error_content
                        (e ++ newline ++ newline ++ js "Details: " ++ d));
           Page.recommendations := None |}).
Proof.
  intros He Hne.
  assert (Ht : truthy (JString e) = true) by (destruct e; [congruence|reflexivity]).
  split.
  - intros Hd. simpl. unfold Page.reply_of_response. cbn [getprop].
    rewrite He, Hd. cbn [truthy_opt]. rewrite Ht, orb_true_r.
    unfold Page.response_error, Page.or_default. rewrite Ht. simpl.
    now rewrite app_nil_r.
  - intros d Hd Hdne.
    assert (Htd : truthy (JString d) = true)
      by (destruct d; [congruence|reflexivity]).
    simpl. unfold Page.reply_of_response. cbn [getprop].
    rewrite He, Hd. cbn [truthy_opt]. rewrite Ht, orb_true_r.
    unfold Page.response_error, Page.or_default. cbn [truthy_opt].
    rewrite Ht, Htd. reflexivity.
Qed.

Lemma body_error_is_shown_witness :
  Page.reply Page.an_engine (Page.Responds true Page.an_error_body) =
    {| Page.role := Page.assistant;
       Page.content :=
         JString (Page.error_content
                    (js "Failed to generate recommendations" ++ newline ++ newline
                       ++ js "Details: " ++ js "OPENAI_API_KEY is not set"));
       Page.recommendations := None |}.
Proof.
  apply (@body_error_is_shown Page.an_engine true
           [ (js "error", JString (js "Failed to generate recommendations"));
             (js "details", JString (js "OPENAI_API_KEY is not set")) ]
           (js "Failed to generate recommendations")).
  - reflexivity.
  - discriminate.
  - reflexivity.
  - discriminate.
Defined.

(** X16: a response that is not ok and whose body is an object without
    [error] and [details] is shown as the stock failure message, and the
    recommendations and raw answer the body may hold are not shown. *)
Theorem failed_response_is_shown
    (engine : Page.Engine) (fields : list (jsstring * JSON)) :
  lookup (js "error") fields = None ->
  lookup (js "details") fields = None ->
  Page.reply engine (Page.Responds false (JObject fields)) =
    {| Page.role := Page.assistant;
       Page.content :=
         JString (Page.error_content (js "Failed to get recommendations"));
       Page.recommendations := None |}.
Proof.
  intros He Hd. simpl. unfold Page.reply_of_response. cbn [getprop].
  rewrite He, Hd. reflexivity.
Qed.

Lemma failed_response_is_shown_witness :
  Page.recommendations
    (Page.reply Page.an_engine (Page.Responds false Page.a_body)) = None.
Proof.
  unfold Page.a_body.
  rewrite (@failed_response_is_shown Page.an_engine
             [ (js "recommendations", JArray [Sample.recommendation_A]);
               (js "rawModelAnswer", JString (js "Pick A.")) ]);
    reflexivity.
Defined.

(** * The request sent to the chat model *)

(** X17: every call to the chat model names a model, the one of the
    environment when that is set and not empty and gpt-3.5-turbo
    otherwise; it asks for a JSON object of at most 500 tokens, and its
    messages are the fixed system prompt followed by one user message
    that holds the question as it came. *)
Theorem chat_request_is_well_formed
    (w : World) (userQuery : jsstring) (topN : nat)
    (openai : OpenAI) (request : ChatRequest) :
  In (ChatCompletionCall openai request)
     (snd (run (generateRecommendations w userQuery topN))) ->
  model request <> [] /\
  (unset (env_CHAT_MODEL w) = true -> model request = js "gpt-3.5-turbo") /\
  (forall m, env_CHAT_MODEL w = Some m -> m <> [] -> model request = m) /\
  max_tokens request = 500%Z /\
  response_format request = js "json_object" /\
  exists rest,
    messages request =
      [ {| role := js "system"; content := systemPrompt |};
        {| role := js "user";
           content := js "Question: " ++ userQuery ++ newline ++ rest |} ].
Proof.
  intros Hin.
  destruct (chat_call_inversion _ _ _ _ _ Hin)
    as (_ & _ & v & sim & _ & _ & _ & ->).
  unfold chatRequest, CHAT_MODEL. cbn [model max_tokens response_format messages].
  repeat split.
  - destruct (env_CHAT_MODEL w) as [[|c m]|]; discriminate.
  - unfold unset. destruct (env_CHAT_MODEL w) as [[|c m]|]; try reflexivity.
    discriminate.
  - intros m Hm Hne. rewrite Hm. destruct m; [congruence|reflexivity].
  - eexists.
    unfold userPrompt. cbn [join]. rewrite <- app_assoc. reflexivity.
Qed.

Lemma chat_request_is_well_formed_witness :
  model (chatRequest
           (Sample.world Sample.key [Sample.A; Sample.C]
              (inr (Sample.a_completion Sample.answer_text)))
           Sample.question
           (formatCardsForContext
              (Sample.world Sample.key [Sample.A; Sample.C]
                 (inr (Sample.a_completion Sample.answer_text)))
              [Sample.A; Sample.C])) = js "gpt-3.5-turbo".
Proof.
  refine (proj1 (proj2 (@chat_request_is_well_formed
                          (Sample.world Sample.key [Sample.A; Sample.C]
                             (inr (Sample.a_completion Sample.answer_text)))
                          Sample.question 12 {| apiKey := js "sk-test" |} _ _)) _).
  - rewrite sample_run. simpl. right; right; left. reflexivity.
  - reflexivity.
Defined.

(** * Suggested questions *)

(** X18: choosing a suggested question only fills the input: nothing is
    sent and the messages stay; pressing Enter afterwards, with no
    request under way, sends that question, trimmed. *)
Theorem suggested_question_is_sent_on_enter
    (engine : Page.Engine) (st : Page.State) (outcome : Page.FetchOutcome)
    (question : jsstring) :
  Page.isLoading st = false ->
  Page.trim question <> [] ->
  Page.requests (Page.handleSuggestedQuestion question) = [] /\
  Page.messages (Page.after st (Page.handleSuggestedQuestion question))
    = Page.messages st /\
  Page.requests
    (Page.handleKeyPress engine
       (Page.after st (Page.handleSuggestedQuestion question)) outcome
       {| Page.key := js "Enter"; Page.shiftKey := false |})
    = [Page.trim question].
Proof.
  intros Hload Hne.
  split; [reflexivity|]. split; [reflexivity|].
  unfold Page.handleKeyPress, Page.handleSend, Page.after. simpl.
  rewrite Hload.
  destruct (Page.trim question); [congruence|reflexivity].
Qed.

Lemma suggested_question_is_sent_on_enter_witness :
  Page.requests
    (Page.handleKeyPress Page.an_engine
       (Page.after Page.a_state
          (Page.handleSuggestedQuestion (js "Best no-annual-fee starter card")))
       (Page.Responds true Page.a_body)
       {| Page.key := js "Enter"; Page.shiftKey := false |})
    = [js "Best no-annual-fee starter card"].
Proof.
  apply (@suggested_question_is_sent_on_enter
           Page.an_engine Page.a_state (Page.Responds true Page.a_body)
           (js "Best no-annual-fee starter card")).
  - reflexivity.
  - vm_compute. discriminate.
Defined.
